(** * burst-type.pro: the session reducer of [src/config/state.ts]

    A shallow embedding of the typing trainer's state machine: the word
    factory [createWord], the initial state and the reducer, followed by the
    properties of the specification that concern them.

    Modelling conventions.
    - A JavaScript string is the list of its UTF-16 code units ([list N]);
      [s.length] is [length s], [s[i]] is [s !! i] ([None] for [undefined])
      and [s.split('')] is the list of its one-unit strings.
    - [level] and [highestLevel] are wordlist indices, natural numbers.
      [streak], the two targets and the timestamps are integers ([Z]); on
      integers below 2^53 the double arithmetic the reducer performs on them
      ([+ 1], [- 1], [Math.max], [Math.min], comparisons) is exact.
    - The words-per-minute value is the one place where the reducer divides.
      It is a [number]: a rational, an infinity or NaN, with the IEEE 754
      rules for division by zero.  The quotients under the reducer's
      [Math.round] are rounded to binary64 ([float_div]: round to nearest,
      ties to even), as the rounding decides which way a half goes; the
      zero of either sign is the one rational 0.
    - [toLowerCase] follows the Unicode default case conversion with the
      tables of Unicode 14.0: the simple mappings, U+0130, and the final
      sigma.
    - [Date.now()] is read once per dispatch: the reducer takes the reading
      as its argument [now].
    - An optional field is an [option]; a property access on [undefined]
      throws, which the reducer's [result] records as [TypeError].
    - [playSound] only talks to the audio context: it neither contributes to
      the returned state nor is part of it, and is left out of the reducer;
      the requests it receives are modelled on their own further down, as is
      the earlier reducer of [src/app/page.tsx]. *)

From Stdlib Require Import ZArith QArith Qround Qabs Qpower String Ascii Lia.
From Stdlib Require SpecFloat.
From stdpp Require Import base list.

Open Scope Z_scope.

(** ** JavaScript values *)

Abbreviation jsstring := (list N).

(** A string literal of the source, as code units. *)
Definition lit (s : string) : jsstring :=
  map N_of_ascii (list_ascii_of_string s).

(** [s.split('')]: one string per code unit. *)
Definition split (s : jsstring) : list jsstring :=
  map (fun u => [u]) s.

(** ** Lower case *)

(** The simple lower-case mappings of the Basic Multilingual Plane (Unicode
    14.0), as arithmetic runs [(first, last, step, image of first)] in
    ascending order: every [step]-th code point from [first] to [last] is
    moved by the same distance as [first].  U+0130 is not among them. *)
Definition lowerBMP : list (N * N * N * N) :=
  [(65, 90, 1, 97); (192, 214, 1, 224); (216, 222, 1, 248);
   (256, 302, 2, 257); (306, 310, 2, 307); (313, 327, 2, 314);
   (330, 374, 2, 331); (376, 376, 1, 255); (377, 381, 2, 378);
   (385, 385, 1, 595); (386, 388, 2, 387); (390, 390, 1, 596);
   (391, 391, 1, 392); (393, 394, 1, 598); (395, 395, 1, 396);
   (398, 398, 1, 477); (399, 399, 1, 601); (400, 400, 1, 603);
   (401, 401, 1, 402); (403, 403, 1, 608); (404, 404, 1, 611);
   (406, 406, 1, 617); (407, 407, 1, 616); (408, 408, 1, 409);
   (412, 412, 1, 623); (413, 413, 1, 626); (415, 415, 1, 629);
   (416, 420, 2, 417); (422, 422, 1, 640); (423, 423, 1, 424);
   (425, 425, 1, 643); (428, 428, 1, 429); (430, 430, 1, 648);
   (431, 431, 1, 432); (433, 434, 1, 650); (435, 437, 2, 436);
   (439, 439, 1, 658); (440, 440, 1, 441); (444, 444, 1, 445);
   (452, 452, 1, 454); (453, 453, 1, 454); (455, 455, 1, 457);
   (456, 456, 1, 457); (458, 458, 1, 460); (459, 475, 2, 460);
   (478, 494, 2, 479); (497, 497, 1, 499); (498, 500, 2, 499);
   (502, 502, 1, 405); (503, 503, 1, 447); (504, 542, 2, 505);
   (544, 544, 1, 414); (546, 562, 2, 547); (570, 570, 1, 11365);
   (571, 571, 1, 572); (573, 573, 1, 410); (574, 574, 1, 11366);
   (577, 577, 1, 578); (579, 579, 1, 384); (580, 580, 1, 649);
   (581, 581, 1, 652); (582, 590, 2, 583); (880, 882, 2, 881);
   (886, 886, 1, 887); (895, 895, 1, 1011); (902, 902, 1, 940);
   (904, 906, 1, 941); (908, 908, 1, 972); (910, 911, 1, 973);
   (913, 929, 1, 945); (931, 939, 1, 963); (975, 975, 1, 983);
   (984, 1006, 2, 985); (1012, 1012, 1, 952); (1015, 1015, 1, 1016);
   (1017, 1017, 1, 1010); (1018, 1018, 1, 1019); (1021, 1023, 1, 891);
   (1024, 1039, 1, 1104); (1040, 1071, 1, 1072); (1120, 1152, 2, 1121);
   (1162, 1214, 2, 1163); (1216, 1216, 1, 1231); (1217, 1229, 2, 1218);
   (1232, 1326, 2, 1233); (1329, 1366, 1, 1377); (4256, 4293, 1, 11520);
   (4295, 4295, 1, 11559); (4301, 4301, 1, 11565); (5024, 5103, 1, 43888);
   (5104, 5109, 1, 5112); (7312, 7354, 1, 4304); (7357, 7359, 1, 4349);
   (7680, 7828, 2, 7681); (7838, 7838, 1, 223); (7840, 7934, 2, 7841);
   (7944, 7951, 1, 7936); (7960, 7965, 1, 7952); (7976, 7983, 1, 7968);
   (7992, 7999, 1, 7984); (8008, 8013, 1, 8000); (8025, 8031, 2, 8017);
   (8040, 8047, 1, 8032); (8072, 8079, 1, 8064); (8088, 8095, 1, 8080);
   (8104, 8111, 1, 8096); (8120, 8121, 1, 8112); (8122, 8123, 1, 8048);
   (8124, 8124, 1, 8115); (8136, 8139, 1, 8050); (8140, 8140, 1, 8131);
   (8152, 8153, 1, 8144); (8154, 8155, 1, 8054); (8168, 8169, 1, 8160);
   (8170, 8171, 1, 8058); (8172, 8172, 1, 8165); (8184, 8185, 1, 8056);
   (8186, 8187, 1, 8060); (8188, 8188, 1, 8179); (8486, 8486, 1, 969);
   (8490, 8490, 1, 107); (8491, 8491, 1, 229); (8498, 8498, 1, 8526);
   (8544, 8559, 1, 8560); (8579, 8579, 1, 8580); (9398, 9423, 1, 9424);
   (11264, 11311, 1, 11312); (11360, 11360, 1, 11361);
   (11362, 11362, 1, 619); (11363, 11363, 1, 7549); (11364, 11364, 1, 637);
   (11367, 11371, 2, 11368); (11373, 11373, 1, 593); (11374, 11374, 1, 625);
   (11375, 11375, 1, 592); (11376, 11376, 1, 594); (11378, 11378, 1, 11379);
   (11381, 11381, 1, 11382); (11390, 11391, 1, 575);
   (11392, 11490, 2, 11393); (11499, 11501, 2, 11500);
   (11506, 11506, 1, 11507); (42560, 42604, 2, 42561);
   (42624, 42650, 2, 42625); (42786, 42798, 2, 42787);
   (42802, 42862, 2, 42803); (42873, 42875, 2, 42874);
   (42877, 42877, 1, 7545); (42878, 42886, 2, 42879);
   (42891, 42891, 1, 42892); (42893, 42893, 1, 613);
   (42896, 42898, 2, 42897); (42902, 42920, 2, 42903);
   (42922, 42922, 1, 614); (42923, 42923, 1, 604); (42924, 42924, 1, 609);
   (42925, 42925, 1, 620); (42926, 42926, 1, 618); (42928, 42928, 1, 670);
   (42929, 42929, 1, 647); (42930, 42930, 1, 669); (42931, 42931, 1, 43859);
   (42932, 42946, 2, 42933); (42948, 42948, 1, 42900);
   (42949, 42949, 1, 642); (42950, 42950, 1, 7566); (42951, 42953, 2, 42952);
   (42960, 42960, 1, 42961); (42966, 42968, 2, 42967);
   (42997, 42997, 1, 42998); (65313, 65338, 1, 65345)]%N.

(** The same for the supplementary planes. *)
Definition lowerAstral : list (N * N * N * N) :=
  [(66560, 66599, 1, 66600); (66736, 66771, 1, 66776);
   (66928, 66964, 2, 66967); (66929, 66937, 2, 66968);
   (66941, 66953, 2, 66980); (66957, 66961, 2, 66996);
   (66965, 66965, 1, 67004); (68736, 68786, 1, 68800);
   (71840, 71871, 1, 71872); (93760, 93791, 1, 93792);
   (125184, 125217, 1, 125218)]%N.

(** The code points with the property Cased, as ranges [(first, last)] in
    ascending order. *)
Definition casedRanges : list (N * N) :=
  [(65, 90); (97, 122); (170, 170); (181, 181); (186, 186); (192, 214);
   (216, 246); (248, 442); (444, 447); (452, 659); (661, 696); (704, 705);
   (736, 740); (837, 837); (880, 883); (886, 887); (890, 893); (895, 895);
   (902, 902); (904, 906); (908, 908); (910, 929); (931, 1013); (1015, 1153);
   (1162, 1327); (1329, 1366); (1376, 1416); (4256, 4293); (4295, 4295);
   (4301, 4301); (4304, 4346); (4349, 4351); (5024, 5109); (5112, 5117);
   (7296, 7304); (7312, 7354); (7357, 7359); (7424, 7615); (7680, 7957);
   (7960, 7965); (7968, 8005); (8008, 8013); (8016, 8023); (8025, 8025);
   (8027, 8027); (8029, 8029); (8031, 8061); (8064, 8116); (8118, 8124);
   (8126, 8126); (8130, 8132); (8134, 8140); (8144, 8147); (8150, 8155);
   (8160, 8172); (8178, 8180); (8182, 8188); (8305, 8305); (8319, 8319);
   (8336, 8348); (8450, 8450); (8455, 8455); (8458, 8467); (8469, 8469);
   (8473, 8477); (8484, 8484); (8486, 8486); (8488, 8488); (8490, 8493);
   (8495, 8500); (8505, 8505); (8508, 8511); (8517, 8521); (8526, 8526);
   (8544, 8575); (8579, 8580); (9398, 9449); (11264, 11492); (11499, 11502);
   (11506, 11507); (11520, 11557); (11559, 11559); (11565, 11565);
   (42560, 42605); (42624, 42653); (42786, 42887); (42891, 42894);
   (42896, 42954); (42960, 42961); (42963, 42963); (42965, 42969);
   (42997, 42998); (43000, 43002); (43824, 43866); (43868, 43880);
   (43888, 43967); (64256, 64262); (64275, 64279); (65313, 65338);
   (65345, 65370); (66560, 66639); (66736, 66771); (66776, 66811);
   (66928, 66938); (66940, 66954); (66956, 66962); (66964, 66965);
   (66967, 66977); (66979, 66993); (66995, 67001); (67003, 67004);
   (67456, 67456); (67459, 67461); (67463, 67504); (67506, 67514);
   (68736, 68786); (68800, 68850); (71840, 71903); (93760, 93823);
   (119808, 119892); (119894, 119964); (119966, 119967); (119970, 119970);
   (119973, 119974); (119977, 119980); (119982, 119993); (119995, 119995);
   (119997, 120003); (120005, 120069); (120071, 120074); (120077, 120084);
   (120086, 120092); (120094, 120121); (120123, 120126); (120128, 120132);
   (120134, 120134); (120138, 120144); (120146, 120485); (120488, 120512);
   (120514, 120538); (120540, 120570); (120572, 120596); (120598, 120628);
   (120630, 120654); (120656, 120686); (120688, 120712); (120714, 120744);
   (120746, 120770); (120772, 120779); (122624, 122633); (122635, 122654);
   (125184, 125251); (127280, 127305); (127312, 127337); (127344, 127369)]%N.

(** The code points with the property Case_Ignorable. *)
Definition caseIgnorableRanges : list (N * N) :=
  [(39, 39); (46, 46); (58, 58); (94, 94); (96, 96); (168, 168); (173, 173);
   (175, 175); (180, 180); (183, 184); (688, 879); (884, 885); (890, 890);
   (900, 901); (903, 903); (1155, 1161); (1369, 1369); (1375, 1375);
   (1425, 1469); (1471, 1471); (1473, 1474); (1476, 1477); (1479, 1479);
   (1524, 1524); (1536, 1541); (1552, 1562); (1564, 1564); (1600, 1600);
   (1611, 1631); (1648, 1648); (1750, 1757); (1759, 1768); (1770, 1773);
   (1807, 1807); (1809, 1809); (1840, 1866); (1958, 1968); (2027, 2037);
   (2042, 2042); (2045, 2045); (2070, 2093); (2137, 2139); (2184, 2184);
   (2192, 2193); (2200, 2207); (2249, 2306); (2362, 2362); (2364, 2364);
   (2369, 2376); (2381, 2381); (2385, 2391); (2402, 2403); (2417, 2417);
   (2433, 2433); (2492, 2492); (2497, 2500); (2509, 2509); (2530, 2531);
   (2558, 2558); (2561, 2562); (2620, 2620); (2625, 2626); (2631, 2632);
   (2635, 2637); (2641, 2641); (2672, 2673); (2677, 2677); (2689, 2690);
   (2748, 2748); (2753, 2757); (2759, 2760); (2765, 2765); (2786, 2787);
   (2810, 2815); (2817, 2817); (2876, 2876); (2879, 2879); (2881, 2884);
   (2893, 2893); (2901, 2902); (2914, 2915); (2946, 2946); (3008, 3008);
   (3021, 3021); (3072, 3072); (3076, 3076); (3132, 3132); (3134, 3136);
   (3142, 3144); (3146, 3149); (3157, 3158); (3170, 3171); (3201, 3201);
   (3260, 3260); (3263, 3263); (3270, 3270); (3276, 3277); (3298, 3299);
   (3328, 3329); (3387, 3388); (3393, 3396); (3405, 3405); (3426, 3427);
   (3457, 3457); (3530, 3530); (3538, 3540); (3542, 3542); (3633, 3633);
   (3636, 3642); (3654, 3662); (3761, 3761); (3764, 3772); (3782, 3782);
   (3784, 3789); (3864, 3865); (3893, 3893); (3895, 3895); (3897, 3897);
   (3953, 3966); (3968, 3972); (3974, 3975); (3981, 3991); (3993, 4028);
   (4038, 4038); (4141, 4144); (4146, 4151); (4153, 4154); (4157, 4158);
   (4184, 4185); (4190, 4192); (4209, 4212); (4226, 4226); (4229, 4230);
   (4237, 4237); (4253, 4253); (4348, 4348); (4957, 4959); (5906, 5908);
   (5938, 5939); (5970, 5971); (6002, 6003); (6068, 6069); (6071, 6077);
   (6086, 6086); (6089, 6099); (6103, 6103); (6109, 6109); (6155, 6159);
   (6211, 6211); (6277, 6278); (6313, 6313); (6432, 6434); (6439, 6440);
   (6450, 6450); (6457, 6459); (6679, 6680); (6683, 6683); (6742, 6742);
   (6744, 6750); (6752, 6752); (6754, 6754); (6757, 6764); (6771, 6780);
   (6783, 6783); (6823, 6823); (6832, 6862); (6912, 6915); (6964, 6964);
   (6966, 6970); (6972, 6972); (6978, 6978); (7019, 7027); (7040, 7041);
   (7074, 7077); (7080, 7081); (7083, 7085); (7142, 7142); (7144, 7145);
   (7149, 7149); (7151, 7153); (7212, 7219); (7222, 7223); (7288, 7293);
   (7376, 7378); (7380, 7392); (7394, 7400); (7405, 7405); (7412, 7412);
   (7416, 7417); (7468, 7530); (7544, 7544); (7579, 7679); (8125, 8125);
   (8127, 8129); (8141, 8143); (8157, 8159); (8173, 8175); (8189, 8190);
   (8203, 8207); (8216, 8217); (8228, 8228); (8231, 8231); (8234, 8238);
   (8288, 8292); (8294, 8303); (8305, 8305); (8319, 8319); (8336, 8348);
   (8400, 8432); (11388, 11389); (11503, 11505); (11631, 11631);
   (11647, 11647); (11744, 11775); (11823, 11823); (12293, 12293);
   (12330, 12333); (12337, 12341); (12347, 12347); (12441, 12446);
   (12540, 12542); (40981, 40981); (42232, 42237); (42508, 42508);
   (42607, 42610); (42612, 42621); (42623, 42623); (42652, 42655);
   (42736, 42737); (42752, 42785); (42864, 42864); (42888, 42890);
   (42994, 42996); (43000, 43001); (43010, 43010); (43014, 43014);
   (43019, 43019); (43045, 43046); (43052, 43052); (43204, 43205);
   (43232, 43249); (43263, 43263); (43302, 43309); (43335, 43345);
   (43392, 43394); (43443, 43443); (43446, 43449); (43452, 43453);
   (43471, 43471); (43493, 43494); (43561, 43566); (43569, 43570);
   (43573, 43574); (43587, 43587); (43596, 43596); (43632, 43632);
   (43644, 43644); (43696, 43696); (43698, 43700); (43703, 43704);
   (43710, 43711); (43713, 43713); (43741, 43741); (43756, 43757);
   (43763, 43764); (43766, 43766); (43867, 43871); (43881, 43883);
   (44005, 44005); (44008, 44008); (44013, 44013); (64286, 64286);
   (64434, 64450); (65024, 65039); (65043, 65043); (65056, 65071);
   (65106, 65106); (65109, 65109); (65279, 65279); (65287, 65287);
   (65294, 65294); (65306, 65306); (65342, 65342); (65344, 65344);
   (65392, 65392); (65438, 65439); (65507, 65507); (65529, 65531);
   (66045, 66045); (66272, 66272); (66422, 66426); (67456, 67461);
   (67463, 67504); (67506, 67514); (68097, 68099); (68101, 68102);
   (68108, 68111); (68152, 68154); (68159, 68159); (68325, 68326);
   (68900, 68903); (69291, 69292); (69446, 69456); (69506, 69509);
   (69633, 69633); (69688, 69702); (69744, 69744); (69747, 69748);
   (69759, 69761); (69811, 69814); (69817, 69818); (69821, 69821);
   (69826, 69826); (69837, 69837); (69888, 69890); (69927, 69931);
   (69933, 69940); (70003, 70003); (70016, 70017); (70070, 70078);
   (70089, 70092); (70095, 70095); (70191, 70193); (70196, 70196);
   (70198, 70199); (70206, 70206); (70367, 70367); (70371, 70378);
   (70400, 70401); (70459, 70460); (70464, 70464); (70502, 70508);
   (70512, 70516); (70712, 70719); (70722, 70724); (70726, 70726);
   (70750, 70750); (70835, 70840); (70842, 70842); (70847, 70848);
   (70850, 70851); (71090, 71093); (71100, 71101); (71103, 71104);
   (71132, 71133); (71219, 71226); (71229, 71229); (71231, 71232);
   (71339, 71339); (71341, 71341); (71344, 71349); (71351, 71351);
   (71453, 71455); (71458, 71461); (71463, 71467); (71727, 71735);
   (71737, 71738); (71995, 71996); (71998, 71998); (72003, 72003);
   (72148, 72151); (72154, 72155); (72160, 72160); (72193, 72202);
   (72243, 72248); (72251, 72254); (72263, 72263); (72273, 72278);
   (72281, 72283); (72330, 72342); (72344, 72345); (72752, 72758);
   (72760, 72765); (72767, 72767); (72850, 72871); (72874, 72880);
   (72882, 72883); (72885, 72886); (73009, 73014); (73018, 73018);
   (73020, 73021); (73023, 73029); (73031, 73031); (73104, 73105);
   (73109, 73109); (73111, 73111); (73459, 73460); (78896, 78904);
   (92912, 92916); (92976, 92982); (92992, 92995); (94031, 94031);
   (94095, 94111); (94176, 94177); (94179, 94180); (110576, 110579);
   (110581, 110587); (110589, 110590); (113821, 113822); (113824, 113827);
   (118528, 118573); (118576, 118598); (119143, 119145); (119155, 119170);
   (119173, 119179); (119210, 119213); (119362, 119364); (121344, 121398);
   (121403, 121452); (121461, 121461); (121476, 121476); (121499, 121503);
   (121505, 121519); (122880, 122886); (122888, 122904); (122907, 122913);
   (122915, 122916); (122918, 122922); (123184, 123197); (123566, 123566);
   (123628, 123631); (125136, 125142); (125252, 125259); (127995, 127999);
   (917505, 917505); (917536, 917631); (917760, 917999)]%N.

(** The image of a code point under a table of runs. *)
Fixpoint mapped (table : list (N * N * N * N)) (c : N) : N :=
  match table with
  | [] => c
  | (first, last, step, image) :: rest =>
      if (c <? first)%N then c
      else if ((c <=? last) && ((c - first) mod step =? 0))%N
      then (image + (c - first))%N
      else mapped rest c
  end.

(** Whether a code point lies in one of the ranges. *)
Fixpoint within (ranges : list (N * N)) (c : N) : bool :=
  match ranges with
  | [] => false
  | (first, last) :: rest =>
      if (c <? first)%N then false
      else if (c <=? last)%N then true
      else within rest c
  end.

Definition cased (c : N) : bool := within casedRanges c.
Definition caseIgnorable (c : N) : bool := within caseIgnorableRanges c.

(** What [toLowerCase] reads: a code unit on its own, or a high surrogate
    followed by a low one, which together stand for a code point of a
    supplementary plane. *)
Inductive point : Type :=
  | Unit (u : N)
  | Pair (high low : N).

Definition isHigh (u : N) : bool := ((55296 <=? u) && (u <=? 56319))%N.
Definition isLow (u : N) : bool := ((56320 <=? u) && (u <=? 57343))%N.

Fixpoint codePoints (s : jsstring) : list point :=
  match s with
  | [] => []
  | u :: rest =>
      match rest with
      | v :: rest' =>
          if isHigh u && isLow v then Pair u v :: codePoints rest'
          else Unit u :: codePoints rest
      | [] => [Unit u]
      end
  end.

Definition scalar (p : point) : N :=
  match p with
  | Unit u => u
  | Pair high low => (65536 + (high - 55296) * 1024 + (low - 56320))%N
  end.

(** The two code units of a code point of a supplementary plane. *)
Definition surrogates (c : N) : jsstring :=
  [(55296 + (c - 65536) / 1024)%N; (56320 + (c - 65536) mod 1024)%N].

(** Lower case of one code unit that is not a capital sigma.  U+0130
    (capital I with dot above) is the one code point whose lower case takes
    more code units than it has: i followed by U+0307. *)
Definition lowerUnit (u : N) : jsstring :=
  if (u =? 304)%N then [105%N; 775%N] else [mapped lowerBMP u].

(** Whether a cased letter follows, case-ignorable characters apart. *)
Fixpoint beforeCased (ps : list point) : bool :=
  match ps with
  | [] => false
  | p :: rest =>
      if caseIgnorable (scalar p) then beforeCased rest else cased (scalar p)
  end.

(** Lower case from left to right.  [afterCased] tells whether a cased
    letter precedes, case-ignorable characters apart: a capital sigma
    (U+03A3) that follows a cased letter and is not followed by one becomes
    the final sigma U+03C2, and U+03C3 otherwise. *)
Fixpoint lowerPoints (afterCased : bool) (ps : list point) : jsstring :=
  match ps with
  | [] => []
  | p :: rest =>
      match p with
      | Unit u =>
          if (u =? 931)%N
          then [if afterCased && negb (beforeCased rest)
                then 962%N else 963%N]
          else lowerUnit u
      | Pair _ _ => surrogates (mapped lowerAstral (scalar p))
      end
      ++ lowerPoints (if caseIgnorable (scalar p) then afterCased
                      else cased (scalar p)) rest
  end.

(** [s.toLowerCase()]. *)
Definition toLowerCase (s : jsstring) : jsstring :=
  lowerPoints false (codePoints s).

(** The text a template literal inserts for [list[index]]. *)
Definition template (entry : option jsstring) : jsstring :=
  match entry with
  | Some s => s
  | None => lit "undefined"
  end.

(** Numbers that a division can produce. *)
Inductive number : Type :=
  | Finite (q : Q)
  | Infinity (negative : bool)
  | NaN.

Definition of_Z (z : Z) : number := Finite (inject_Z z).

Definition Qnegative (q : Q) : bool := negb (Qle_bool 0 q).

(** The exact quotient [x / y].  A zero divisor is +0: the only divisor
    that can vanish in the reducer is a difference of two timestamps. *)
Definition num_div (x y : number) : number :=
  match x, y with
  | NaN, _ | _, NaN => NaN
  | Infinity _, Infinity _ => NaN
  | Infinity s, Finite q => Infinity (xorb s (Qnegative q))
  | Finite _, Infinity _ => Finite 0
  | Finite p, Finite q =>
      if Qeq_bool q 0
      then (if Qeq_bool p 0 then NaN else Infinity (Qnegative p))
      else Finite (p / q)
  end.

(** The exponent of the unit in the last place of a positive rational in
    binary64: 52 below the exponent of its leading bit, and -1074 in the
    subnormal range. *)
Definition ulp_exponent (a : Q) : Z :=
  let e0 := Z.log2 (Qnum a) - Z.log2 (Z.pos (Qden a)) in
  let e := if Qle_bool (2 ^ e0) a then e0 else e0 - 1 in
  Z.max (e - 52) (-1074).

(** The nearest integer, ties to the even one. *)
Definition round_half_even (r : Q) : Z :=
  let f := Qfloor r in
  match (r - inject_Z f ?= 1 # 2)%Q with
  | Lt => f
  | Gt => f + 1
  | Eq => if Z.even f then f else f + 1
  end.

(** The binary64 magnitude nearest to a rational that is not negative: a
    multiple of its unit in the last place. *)
Definition magnitude64 (a : Q) : Q :=
  let k := ulp_exponent a in
  (inject_Z (round_half_even (a / 2 ^ k)) * 2 ^ k)%Q.

(** The binary64 value nearest to a rational, an infinity from 2^1024 on. *)
Definition round64 (q : Q) : number :=
  if Qeq_bool q 0 then Finite 0
  else
    let v := magnitude64 (Qabs q) in
    if Qle_bool (2 ^ 1024) v then Infinity (Qnegative q)
    else Finite (if Qnegative q then (- v)%Q else v).

(** [x / y] on doubles: the exact quotient, rounded. *)
Definition float_div (x y : number) : number :=
  match num_div x y with
  | Finite q => round64 q
  | other => other
  end.

(** [Math.round]: the nearest integer, halves towards +Infinity. *)
Definition Math_round (x : number) : number :=
  match x with
  | Finite q => of_Z (Qfloor (q + (1 # 2)))
  | Infinity s => Infinity s
  | NaN => NaN
  end.

(** [x >= y]. *)
Definition num_ge (x y : number) : bool :=
  match x, y with
  | NaN, _ | _, NaN => false
  | Finite p, Finite q => Qle_bool q p
  | Finite _, Infinity neg => neg
  | Infinity neg, Finite _ => negb neg
  | Infinity a, Infinity b => negb a || b
  end.

(** [x < y]. *)
Definition num_lt (x y : number) : bool :=
  match x, y with
  | NaN, _ | _, NaN => false
  | Finite p, Finite q => negb (Qle_bool q p)
  | Finite _, Infinity neg => negb neg
  | Infinity neg, Finite _ => neg
  | Infinity a, Infinity b => a && negb b
  end.

(** [x === undefined] on an optional field. *)
Definition undefined {A : Type} (x : option A) : bool :=
  match x with
  | None => true
  | Some _ => false
  end.

(** What a call returns: a value, or a thrown [TypeError]. *)
Inductive result (A : Type) : Type :=
  | Ok (a : A)
  | TypeError.
Arguments Ok {A} a.
Arguments TypeError {A}.

(** ** The data model *)

Record Character : Type := mkCharacter {
  character : jsstring;
  correct : option bool;
}.

(** The field [match] of the source is [match_] here. *)
Record Word : Type := mkWord {
  characters : list Character;
  startTime : option Z;
  endTime : option Z;
  wpm : option number;
  hitTargetWPM : bool;
  match_ : bool;
  streak : Z;
}.

Record State : Type := mkState {
  word : Word;
  level : nat;
  highestLevel : option nat;
  buffer : jsstring;
  targetWPM : Z;
  targetStreak : Z;
  finished : bool;
  lastSave : option Z;
  showInstructions : bool;
  lastWPM : option number;
  darkMode : bool;
  customWordlist : option (list jsstring);
  muted : bool;
  successSounds : list jsstring;
  errorSounds : list jsstring;
  speedErrorSounds : list jsstring;
  clickSounds : list jsstring;
}.

Inductive Action : Type :=
  | APPEND_BUFFER (payload : jsstring)
  | JUMP_BACKWARDS
  | JUMP_END
  | JUMP_FORWARDS
  | JUMP_START
  | LOAD_STATE (payload : State)
  | RESET_STATE
  | SAVE_STATE
  | SET_CHARACTERS (payload : list Character)
  | SET_TARGET_STREAK (payload : Z)
  | SET_TARGET_WPM (payload : Z)
  | SET_WORD (payload : Word)
  | SET_WORDLIST (payload : list jsstring)
  | TOGGLE_DARK_MODE
  | TOGGLE_INSTRUCTIONS
  | TOGGLE_MUTED.

(** ** Object spreads: [{...state, field: value}] *)

Definition with_word (v : Word) (s : State) : State :=
  mkState v (level s) (highestLevel s) (buffer s) (targetWPM s)
    (targetStreak s) (finished s) (lastSave s) (showInstructions s)
    (lastWPM s) (darkMode s) (customWordlist s) (muted s) (successSounds s)
    (errorSounds s) (speedErrorSounds s) (clickSounds s).

Definition with_level (v : nat) (s : State) : State :=
  mkState (word s) v (highestLevel s) (buffer s) (targetWPM s)
    (targetStreak s) (finished s) (lastSave s) (showInstructions s)
    (lastWPM s) (darkMode s) (customWordlist s) (muted s) (successSounds s)
    (errorSounds s) (speedErrorSounds s) (clickSounds s).

Definition with_highestLevel (v : option nat) (s : State) : State :=
  mkState (word s) (level s) v (buffer s) (targetWPM s)
    (targetStreak s) (finished s) (lastSave s) (showInstructions s)
    (lastWPM s) (darkMode s) (customWordlist s) (muted s) (successSounds s)
    (errorSounds s) (speedErrorSounds s) (clickSounds s).

Definition with_buffer (v : jsstring) (s : State) : State :=
  mkState (word s) (level s) (highestLevel s) v (targetWPM s)
    (targetStreak s) (finished s) (lastSave s) (showInstructions s)
    (lastWPM s) (darkMode s) (customWordlist s) (muted s) (successSounds s)
    (errorSounds s) (speedErrorSounds s) (clickSounds s).

Definition with_targetWPM (v : Z) (s : State) : State :=
  mkState (word s) (level s) (highestLevel s) (buffer s) v
    (targetStreak s) (finished s) (lastSave s) (showInstructions s)
    (lastWPM s) (darkMode s) (customWordlist s) (muted s) (successSounds s)
    (errorSounds s) (speedErrorSounds s) (clickSounds s).

Definition with_targetStreak (v : Z) (s : State) : State :=
  mkState (word s) (level s) (highestLevel s) (buffer s) (targetWPM s)
    v (finished s) (lastSave s) (showInstructions s)
    (lastWPM s) (darkMode s) (customWordlist s) (muted s) (successSounds s)
    (errorSounds s) (speedErrorSounds s) (clickSounds s).

Definition with_finished (v : bool) (s : State) : State :=
  mkState (word s) (level s) (highestLevel s) (buffer s) (targetWPM s)
    (targetStreak s) v (lastSave s) (showInstructions s)
    (lastWPM s) (darkMode s) (customWordlist s) (muted s) (successSounds s)
    (errorSounds s) (speedErrorSounds s) (clickSounds s).

Definition with_lastSave (v : option Z) (s : State) : State :=
  mkState (word s) (level s) (highestLevel s) (buffer s) (targetWPM s)
    (targetStreak s) (finished s) v (showInstructions s)
    (lastWPM s) (darkMode s) (customWordlist s) (muted s) (successSounds s)
    (errorSounds s) (speedErrorSounds s) (clickSounds s).

Definition with_showInstructions (v : bool) (s : State) : State :=
  mkState (word s) (level s) (highestLevel s) (buffer s) (targetWPM s)
    (targetStreak s) (finished s) (lastSave s) v
    (lastWPM s) (darkMode s) (customWordlist s) (muted s) (successSounds s)
    (errorSounds s) (speedErrorSounds s) (clickSounds s).

Definition with_lastWPM (v : option number) (s : State) : State :=
  mkState (word s) (level s) (highestLevel s) (buffer s) (targetWPM s)
    (targetStreak s) (finished s) (lastSave s) (showInstructions s)
    v (darkMode s) (customWordlist s) (muted s) (successSounds s)
    (errorSounds s) (speedErrorSounds s) (clickSounds s).

Definition with_darkMode (v : bool) (s : State) : State :=
  mkState (word s) (level s) (highestLevel s) (buffer s) (targetWPM s)
    (targetStreak s) (finished s) (lastSave s) (showInstructions s)
    (lastWPM s) v (customWordlist s) (muted s) (successSounds s)
    (errorSounds s) (speedErrorSounds s) (clickSounds s).

Definition with_customWordlist (v : option (list jsstring)) (s : State) : State :=
  mkState (word s) (level s) (highestLevel s) (buffer s) (targetWPM s)
    (targetStreak s) (finished s) (lastSave s) (showInstructions s)
    (lastWPM s) (darkMode s) v (muted s) (successSounds s)
    (errorSounds s) (speedErrorSounds s) (clickSounds s).

Definition with_muted (v : bool) (s : State) : State :=
  mkState (word s) (level s) (highestLevel s) (buffer s) (targetWPM s)
    (targetStreak s) (finished s) (lastSave s) (showInstructions s)
    (lastWPM s) (darkMode s) (customWordlist s) v (successSounds s)
    (errorSounds s) (speedErrorSounds s) (clickSounds s).

(** ** The word factory *)

Definition createWord (list : list jsstring) (index : nat) : Word :=
  {| characters :=
       map (fun c => {| character := c; correct := None |})
         (split (toLowerCase (template (list !! index) ++ lit " ")));
     startTime := None;
     endTime := None;
     wpm := None;
     hitTargetWPM := false;
     match_ := false;
     streak := 0 |}.

Definition defaultLevel : nat := 0.
Definition defaultTargetWPM : Z := 90.
Definition defaultTargetStreak : Z := 5.

Definition wpmOptions : list Z := [30; 60; 90; 120; 200].
Definition streakOptions : list Z := [1; 3; 5; 10; 25].

(** ** The typing evaluator *)

(** [buffer.split('').every((character, index) =>
      character === characters[index].character)], from [index] on.
    [every] stops at the first [false]; reading [.character] of a missing
    element throws. *)
Fixpoint every_from (index : nat) (typed : list jsstring)
    (chars : list Character) : result bool :=
  match typed with
  | [] => Ok true
  | c :: rest =>
      match chars !! index with
      | None => TypeError
      | Some expected =>
          if bool_decide (c = character expected)
          then every_from (S index) rest chars
          else Ok false
      end
  end.

Definition every_character (buffer : jsstring) (chars : list Character)
    : result bool :=
  every_from 0 (split buffer) chars.

(** [characters.map((character, index) => ({...character,
      correct: typed[index] === undefined ? undefined
               : character.character === typed[index]}))]. *)
Definition mark (typed : jsstring) (chars : list Character) : list Character :=
  imap (fun index c =>
          {| character := character c;
             correct :=
               match typed !! index with
               | None => None
               | Some u => Some (bool_decide (character c = [u]))
               end |}) chars.

(** [Math.round(length / 5 / timeElapsed)] with
    [timeElapsed = (Date.now() - (startTime ?? 0)) / 60_000]. *)
Definition wpm_of (now : Z) (start : option Z) (length : nat) : number :=
  let timeElapsed := float_div (of_Z (now - default 0 start)) (of_Z 60000) in
  Math_round
    (float_div (float_div (of_Z (Z.of_nat length)) (of_Z 5)) timeElapsed).

(** ** The reducer *)

Section Reducer.

(** The default wordlist [wordlists/en1000.json]; its content is data. *)
Variable en1000 : list jsstring.

Definition initialState : State :=
  {| word := createWord en1000 defaultLevel;
     level := defaultLevel;
     highestLevel := Some defaultLevel;
     buffer := [];
     targetWPM := defaultTargetWPM;
     targetStreak := defaultTargetStreak;
     finished := false;
     lastSave := None;
     showInstructions := true;
     lastWPM := None;
     darkMode := true;
     customWordlist := None;
     muted := true;
     successSounds := [lit "success"];
     errorSounds := [lit "error"];
     speedErrorSounds := [lit "speed-error"];
     clickSounds := [lit "click"] |}.

(** [state.customWordlist ?? en1000]. *)
Definition activeWordlist (state : State) : list jsstring :=
  default en1000 (customWordlist state).

(** The word of a replay: [{...repeatWord, startTime: Date.now(),
    characters: repeatWord.characters.map(...), streak}]. *)
Definition replayWord (now : Z) (repeatWord : Word) (nextBuffer : jsstring)
    (carried : Z) : Word :=
  {| characters := mark nextBuffer (characters repeatWord);
     startTime := Some now;
     endTime := endTime repeatWord;
     wpm := wpm repeatWord;
     hitTargetWPM := hitTargetWPM repeatWord;
     match_ := match_ repeatWord;
     streak := carried |}.

Definition append_buffer (now : Z) (state : State) (payload : jsstring)
    : result State :=
  if showInstructions state then Ok state
  else if finished state then Ok state
  else if (length (buffer state) =? 0)%nat
          && bool_decide (payload = lit " ") then Ok state
  else if streak (word state) >=? targetStreak state then Ok state
  else
    let appendBuffer := buffer state ++ payload in
    match every_character appendBuffer (characters (word state)) with
    | TypeError => TypeError
    | Ok matched =>
      let wpm_ := wpm_of now (startTime (word state)) (length appendBuffer) in
      let hit := num_ge wpm_ (of_Z (targetWPM state)) in
      if negb matched then
        Ok (with_buffer []
             (with_word
                {| characters := mark appendBuffer (characters (word state));
                   startTime := startTime (word state);
                   endTime := Some now;
                   wpm := Some (Finite 0);
                   hitTargetWPM := false;
                   match_ := false;
                   streak := 0 |} state))
      else if undefined (endTime (word state))
              && (length (characters (word state))
                  <=? length appendBuffer)%nat then
        let streak_ := if hit then streak (word state) + 1 else 0 in
        if streak_ >=? targetStreak state then
          if (level state + 1 =? length (activeWordlist state))%nat
          then Ok (with_lastSave (Some now) (with_finished true state))
          else
            Ok (with_lastSave (Some now)
                 (with_buffer []
                    (with_word
                       (createWord (activeWordlist state) (level state + 1))
                       (with_highestLevel
                          (Some (Nat.max (default 0%nat (highestLevel state))
                                         (level state + 1)))
                          (with_level (level state + 1) state)))))
        else
          Ok (with_lastWPM (Some wpm_)
               (with_word
                  {| characters := mark appendBuffer (characters (word state));
                     startTime := startTime (word state);
                     endTime := Some now;
                     wpm := Some wpm_;
                     hitTargetWPM := hit;
                     match_ := matched;
                     streak := streak_ |}
                  (with_buffer [] state)))
      else if undefined (endTime (word state))
              && (length appendBuffer
                  <? length (characters (word state)))%nat then
        Ok (with_word
              {| characters := mark appendBuffer (characters (word state));
                 startTime := Some (default now (startTime (word state)));
                 endTime := endTime (word state);
                 wpm := wpm (word state);
                 hitTargetWPM := hitTargetWPM (word state);
                 match_ := match_ (word state);
                 streak := streak (word state) |}
              (with_buffer appendBuffer state))
      else
        match wpm (word state) with
        | None => Ok state
        | Some previous =>
          let nextBuffer := payload in
          let repeatWord := createWord (activeWordlist state) (level state) in
          if negb (match_ (word state))
             || num_lt previous (of_Z (targetWPM state)) then
            Ok (with_buffer nextBuffer
                 (with_word
                    (replayWord now repeatWord nextBuffer (streak repeatWord))
                    state))
          else if streak (word state) <? targetStreak state then
            Ok (with_buffer nextBuffer
                 (with_word
                    (replayWord now repeatWord nextBuffer (streak (word state)))
                    state))
          else Ok state
        end
    end.

(** The four navigation actions share their return statement. *)
Definition jump_to (now : Z) (state : State) (target : nat) : State :=
  with_lastSave (Some now)
    (with_finished false
       (with_buffer []
          (with_word (createWord (activeWordlist state) target)
             (with_level target state)))).

Definition reducer (now : Z) (state : State) (action : Action)
    : result State :=
  match action with
  | SAVE_STATE => Ok (with_lastSave (Some now) state)
  | LOAD_STATE payload => Ok payload
  | SET_TARGET_STREAK payload =>
      Ok (with_lastSave (Some now) (with_targetStreak payload state))
  | SET_TARGET_WPM payload =>
      Ok (with_lastSave (Some now) (with_targetWPM payload state))
  | SET_WORD payload => Ok (with_word payload state)
  | SET_CHARACTERS payload =>
      Ok (with_word
            {| characters := payload;
               startTime := startTime (word state);
               endTime := endTime (word state);
               wpm := wpm (word state);
               hitTargetWPM := hitTargetWPM (word state);
               match_ := match_ (word state);
               streak := streak (word state) |} state)
  | SET_WORDLIST payload =>
      Ok (with_showInstructions false
           (with_lastSave (Some now)
              (with_customWordlist (Some payload)
                 (with_darkMode (darkMode state)
                    (with_targetStreak (targetStreak state)
                       (with_targetWPM (targetWPM state)
                          (with_word (createWord payload 0)
                             (with_highestLevel (Some 0%nat)
                                (with_level 0%nat initialState)))))))))
  | APPEND_BUFFER payload => append_buffer now state payload
  | JUMP_FORWARDS =>
      if showInstructions state then Ok state
      else
        match highestLevel state with
        | None => Ok state
        | Some highest =>
            let nextLevel := Nat.min highest (level state + 1) in
            Ok (jump_to now state nextLevel)
        end
  | JUMP_BACKWARDS =>
      if showInstructions state then Ok state
      else
        match highestLevel state with
        | None => Ok state
        | Some _ =>
            let previousLevel :=
              Z.to_nat (Z.max 0 (Z.of_nat (level state) - 1)) in
            Ok (jump_to now state previousLevel)
        end
  | JUMP_START =>
      if showInstructions state then Ok state
      else Ok (jump_to now state 0%nat)
  | JUMP_END =>
      if showInstructions state then Ok state
      else
        match highestLevel state with
        | None => Ok state
        | Some highest => Ok (jump_to now state highest)
        end
  | RESET_STATE => Ok (with_lastSave (Some now) initialState)
  | TOGGLE_INSTRUCTIONS =>
      Ok (with_showInstructions (negb (showInstructions state)) state)
  | TOGGLE_DARK_MODE =>
      Ok (with_lastSave (Some now) (with_darkMode (negb (darkMode state)) state))
  | TOGGLE_MUTED =>
      Ok (with_lastSave (Some now) (with_muted (negb (muted state)) state))
  end.

End Reducer.

(** ** Sample data for the closed examples *)

Definition sampleList : list jsstring := [lit "cat"; lit "dog"].

(** A session on [sampleList] with the overlay closed and the spec's
    scenario targets. *)
Definition sampleStart : State :=
  with_targetStreak 1
    (with_targetWPM 30
       (with_showInstructions false
          (with_customWordlist (Some sampleList) (initialState sampleList)))).

(** The word of [sampleList] at [index] with the given progress. *)
Definition sampleWord (index : nat) (start finish : option Z)
    (speed : option number) (hit matched : bool) (run : Z) : Word :=
  {| characters := characters (createWord sampleList index);
     startTime := start;
     endTime := finish;
     wpm := speed;
     hitTargetWPM := hit;
     match_ := matched;
     streak := run |}.

(** In the middle of the word at [index]: [typed] so far, first key at
    [start], a streak of [run] out of [goal]. *)
Definition sampleTyping (index : nat) (typed : jsstring) (start : option Z)
    (run goal : Z) : State :=
  with_targetStreak goal
    (with_buffer typed
       (with_word (sampleWord index start None None false false run)
          (with_highestLevel (Some index) (with_level index sampleStart)))).

(** The states a session runs through: each event is a reading of the
    clock and the action dispatched then. *)
Fixpoint dispatchAll (en1000 : list jsstring) (state : State)
    (events : list (Z * Action)) : result State :=
  match events with
  | [] => Ok state
  | (now, action) :: rest =>
      match reducer en1000 now state action with
      | Ok next => dispatchAll en1000 next rest
      | TypeError => TypeError
      end
  end.

(** One keystroke per code unit of [text], the first at [start] and the
    following ones [step] milliseconds apart. *)
Definition typing (start step : Z) (text : jsstring) : list (Z * Action) :=
  imap (fun i u => (start + step * Z.of_nat i, APPEND_BUFFER [u])) text.

(** The first word typed twice in a row, 100 ms a key: 160 words per
    minute each time. *)
Definition sampleTwice : list (Z * Action) :=
  typing 0 100 (lit "cat ") ++ typing 1000 100 (lit "cat ").

(** Where [sampleTwice] leaves a session that asks for a streak of 5. *)
Definition sampleAwaiting : State :=
  with_lastWPM (Some (of_Z 160))
    (with_word
       {| characters := mark (lit "cat ") (characters (createWord sampleList 0));
          startTime := Some 1000;
          endTime := Some 1300;
          wpm := Some (of_Z 160);
          hitTargetWPM := true;
          match_ := true;
          streak := 2 |}
       (with_targetStreak 5 sampleStart)).

(** Both words typed, the second one twice, up to the last key of a session
    that asks for a streak of 2. *)
Definition sampleLastKey : list (Z * Action) :=
  typing 0 100 (lit "cat ") ++ typing 1000 100 (lit "cat ")
  ++ typing 2000 100 (lit "dog ") ++ typing 3000 100 (lit "dog").

(** Where [sampleLastKey] leaves that session. *)
Definition sampleBeforeFinish : State :=
  with_lastSave (Some 1300)
    (with_lastWPM (Some (of_Z 160))
       (with_buffer (lit "dog")
          (with_word
             {| characters :=
                  mark (lit "dog") (characters (createWord sampleList 1));
                startTime := Some 3000;
                endTime := None;
                wpm := None;
                hitTargetWPM := false;
                match_ := false;
                streak := 1 |}
             (with_highestLevel (Some 1%nat)
                (with_level 1%nat (with_targetStreak 2 sampleStart)))))).

(** ** What the claims speak about *)

(** Every typed character equals the word's character at its position. *)
Definition matches (typed : jsstring) (chars : list Character) : Prop :=
  forall i u, typed !! i = Some u ->
    exists c, chars !! i = Some c /\ character c = [u].

(** Some typed character differs from the word's character at its position. *)
Definition differs (typed : jsstring) (chars : list Character) : Prop :=
  exists i u c, typed !! i = Some u /\ chars !! i = Some c /\ character c <> [u].

(** Lower case of a code unit below 256, as one code unit. *)
Definition lowerLatin1 (u : N) : N :=
  if ((65 <=? u) && (u <=? 90))%N then (u + 32)%N
  else if ((192 <=? u) && (u <=? 222) && negb (u =? 215))%N then (u + 32)%N
  else u.

(** The streak an attempt that completes the word at [now] earns. *)
Definition earned (now : Z) (state : State) (payload : jsstring) : Z :=
  if num_ge (wpm_of now (startTime (word state))
               (length (buffer state ++ payload)))
            (of_Z (targetWPM state))
  then streak (word state) + 1
  else 0.

(** The keystroke completes the word: it passes the guards of
    [APPEND_BUFFER], the attempt is still open, every typed character
    matches and the buffer reaches the word's length. *)
Definition completes (state : State) (payload : jsstring) : Prop :=
  showInstructions state = false
  /\ finished state = false
  /\ ~ (buffer state = [] /\ payload = lit " ")
  /\ streak (word state) < targetStreak state
  /\ endTime (word state) = None
  /\ matches (buffer state ++ payload) (characters (word state))
  /\ (length (characters (word state)) <= length (buffer state ++ payload))%nat.

(** ** The evaluator's loop against its meaning *)

Lemma every_from_matches (typed : jsstring) (chars : list Character) :
  forall index,
    every_from index (split typed) chars = Ok true <->
    (forall j u, typed !! j = Some u ->
       exists c, chars !! (index + j)%nat = Some c /\ character c = [u]).
Proof.
  induction typed as [|u0 rest IH]; intros index; simpl.
  - split; [intros _ j u Hj; rewrite lookup_nil in Hj; discriminate | reflexivity].
  - destruct (chars !! index) as [expected|] eqn:Hexp.
    + case_bool_decide as Heq.
      * rewrite IH. split.
        -- intros Hrest [|j] u Hj; simpl in Hj.
           ++ injection Hj as <-. rewrite Nat.add_0_r. eauto.
           ++ replace (index + S j)%nat with (S index + j)%nat by lia. eauto.
        -- intros Hall j u Hj.
           replace (S index + j)%nat with (index + S j)%nat by lia.
           apply Hall. exact Hj.
      * split; [discriminate|].
        intros Hall. destruct (Hall 0%nat u0 eq_refl) as (c & Hc & Hu).
        rewrite Nat.add_0_r, Hexp in Hc. injection Hc as <-.
        congruence.
    + split; [discriminate|].
      intros Hall. destruct (Hall 0%nat u0 eq_refl) as (c & Hc & _).
      rewrite Nat.add_0_r, Hexp in Hc. discriminate.
Qed.

Lemma every_character_matches (typed : jsstring) (chars : list Character) :
  every_character typed chars = Ok true <-> matches typed chars.
Proof.
  unfold every_character, matches. rewrite every_from_matches. reflexivity.
Qed.

Lemma every_from_differs (typed : jsstring) (chars : list Character) :
  forall index,
    (exists j u c, typed !! j = Some u /\ chars !! (index + j)%nat = Some c
                   /\ character c <> [u]) ->
    every_from index (split typed) chars = Ok false.
Proof.
  induction typed as [|u0 rest IH]; intros index (j & u & c & Hj & Hc & Hne).
  - rewrite lookup_nil in Hj. discriminate.
  - simpl. destruct (chars !! index) as [expected|] eqn:Hexp.
    + case_bool_decide as Heq; [|reflexivity].
      destruct j as [|j]; simpl in Hj.
      * injection Hj as <-. rewrite Nat.add_0_r, Hexp in Hc.
        injection Hc as <-. congruence.
      * apply IH. exists j, u, c.
        replace (S index + j)%nat with (index + S j)%nat by lia. auto.
    + apply lookup_lt_Some in Hc. apply lookup_ge_None in Hexp. lia.
Qed.

Lemma every_character_differs (typed : jsstring) (chars : list Character) :
  differs typed chars -> every_character typed chars = Ok false.
Proof.
  intros (j & u & c & H). apply every_from_differs. exists j, u, c. exact H.
Qed.

(** The loop cannot throw while the buffer fits into the word. *)
Lemma every_from_fits (typed : jsstring) (chars : list Character) :
  forall index,
    (index + length typed <= length chars)%nat ->
    exists b, every_from index (split typed) chars = Ok b.
Proof.
  induction typed as [|u0 rest IH]; intros index Hfit; simpl in *.
  - eauto.
  - destruct (lookup_lt_is_Some_2 chars index) as [expected ->]; [lia|].
    case_bool_decide; [apply IH; lia | eauto].
Qed.

Lemma matches_length (typed : jsstring) (chars : list Character) :
  matches typed chars -> (length typed <= length chars)%nat.
Proof.
  intros Hm. destruct typed as [|u0 rest] eqn:E using rev_ind; [simpl; lia|].
  clear IHrest.
  destruct (Hm (length rest) u0) as (c & Hc & _).
  - rewrite lookup_app_r by lia. rewrite Nat.sub_diag. reflexivity.
  - apply lookup_lt_Some in Hc. rewrite length_app. simpl. lia.
Qed.

(** ** Guards of [APPEND_BUFFER] *)

Lemma leading_space_guard (st : State) (payload : jsstring) :
  ~ (buffer st = [] /\ payload = lit " ") ->
  (length (buffer st) =? 0)%nat && bool_decide (payload = lit " ") = false.
Proof.
  intros Hn. apply andb_false_iff.
  destruct (buffer st) as [|u rest]; [right | left; reflexivity].
  apply bool_decide_eq_false. intros ->. apply Hn. split; reflexivity.
Qed.

Lemma streak_guard (st : State) :
  streak (word st) < targetStreak st ->
  (streak (word st) >=? targetStreak st) = false.
Proof.
  intros H. rewrite Z.geb_leb. apply Z.leb_gt. exact H.
Qed.

(** ** Lower case *)

(** Strings are read two code units at a time. *)
Lemma jsstring_pairs_ind (P : jsstring -> Prop) :
  P [] ->
  (forall u, P [u]) ->
  (forall u v rest, P rest -> P (v :: rest) -> P (u :: v :: rest)) ->
  forall s, P s.
Proof.
  intros Hnil Hone Hmore.
  assert (Hboth : forall s, P s /\ forall u, P (u :: s)).
  { induction s as [|v rest [IHrest IHcons]].
    - split; [exact Hnil | exact Hone].
    - split; [apply IHcons|]. intros u.
      apply Hmore; [exact IHrest | apply IHcons]. }
  intros s. apply Hboth.
Qed.

(** A space is neither cased nor case-ignorable, and a string that ends
    with it is lowered as the string before it, whatever that ends with. *)
Lemma beforeCased_space (ps : list point) :
  beforeCased (ps ++ [Unit 32]) = beforeCased ps.
Proof.
  induction ps as [|p rest IH]; [reflexivity|].
  simpl. rewrite IH. reflexivity.
Qed.

Lemma lowerPoints_space (afterCased : bool) (ps : list point) :
  lowerPoints afterCased (ps ++ [Unit 32])
  = lowerPoints afterCased ps ++ lit " ".
Proof.
  revert afterCased. induction ps as [|p rest IH]; intros afterCased.
  - destruct afterCased; reflexivity.
  - cbn [app lowerPoints]. rewrite IH, beforeCased_space.
    rewrite <- app_assoc. reflexivity.
Qed.

Lemma codePoints_space (s : jsstring) :
  codePoints (s ++ lit " ") = codePoints s ++ [Unit 32].
Proof.
  change (lit " ") with [32%N].
  induction s as [|u|u v rest IHrest IHcons] using jsstring_pairs_ind.
  - reflexivity.
  - cbn [app codePoints]. change (isLow 32) with false.
    rewrite andb_false_r. reflexivity.
  - change ((u :: v :: rest) ++ [32%N]) with (u :: (v :: rest) ++ [32%N]).
    change (codePoints (u :: (v :: rest) ++ [32%N]))
      with (if isHigh u && isLow v
            then Pair u v :: codePoints (rest ++ [32%N])
            else Unit u :: codePoints ((v :: rest) ++ [32%N])).
    rewrite IHrest, IHcons. cbn [codePoints].
    destruct (isHigh u && isLow v); reflexivity.
Qed.

Lemma toLowerCase_space (s : jsstring) :
  toLowerCase (s ++ lit " ") = toLowerCase s ++ lit " ".
Proof.
  unfold toLowerCase. rewrite codePoints_space. apply lowerPoints_space.
Qed.

(** Only U+0130 changes the number of code units. *)
Lemma lowerPoints_length (afterCased : bool) (s : jsstring) :
  length (lowerPoints afterCased (codePoints s))
  = (length s + count_occ N.eq_dec s 304%N)%nat.
Proof.
  revert afterCased.
  induction s as [|u|u v rest IHrest IHcons] using jsstring_pairs_ind;
    intros afterCased.
  - reflexivity.
  - cbn [codePoints lowerPoints]. rewrite app_nil_r. unfold lowerUnit.
    cbn [count_occ].
    destruct (N.eqb_spec u 931) as [->|_]; [reflexivity|].
    destruct (N.eqb_spec u 304) as [->|Hu]; [reflexivity|].
    destruct (N.eq_dec u 304%N); [contradiction | reflexivity].
  - cbn [codePoints]. destruct (isHigh u && isLow v) eqn:Hpair.
    + cbn [lowerPoints]. rewrite length_app, IHrest.
      apply andb_true_iff in Hpair as [Hu Hv].
      unfold isHigh in Hu. unfold isLow in Hv.
      apply andb_true_iff in Hu as [Hu _]. apply andb_true_iff in Hv as [Hv _].
      apply N.leb_le in Hu, Hv.
      cbn [count_occ length surrogates].
      destruct (N.eq_dec u 304%N); [lia|]. destruct (N.eq_dec v 304%N); [lia|].
      lia.
    + cbn [lowerPoints]. rewrite length_app.
      change (codePoints (v :: rest)) with (codePoints (v :: rest)) in IHcons.
      rewrite IHcons. unfold lowerUnit.
      change (count_occ N.eq_dec (u :: v :: rest) 304%N)
        with (if N.eq_dec u 304%N
              then S (count_occ N.eq_dec (v :: rest) 304%N)
              else count_occ N.eq_dec (v :: rest) 304%N).
      destruct (N.eqb_spec u 931) as [->|_]; [simpl; lia|].
      destruct (N.eqb_spec u 304) as [->|Hu]; [simpl; lia|].
      destruct (N.eq_dec u 304%N); [contradiction | simpl; lia].
Qed.

Lemma toLowerCase_length (s : jsstring) :
  length (toLowerCase s) = (length s + count_occ N.eq_dec s 304%N)%nat.
Proof. apply lowerPoints_length. Qed.

(** Below 256 the lower case is [lowerLatin1], one unit for one. *)
Lemma lowerUnit_latin1 (u : N) :
  (u < 256)%N -> lowerUnit u = [lowerLatin1 u].
Proof.
  intros Hu.
  assert (Hall : forallb (fun n => bool_decide
                            (lowerUnit (N.of_nat n) = [lowerLatin1 (N.of_nat n)]))
                   (seq 0 256) = true) by (vm_compute; reflexivity).
  rewrite forallb_forall in Hall.
  assert (Hin : In (N.to_nat u) (seq 0 256)) by (apply in_seq; lia).
  apply Hall in Hin. rewrite N2Nat.id in Hin.
  apply bool_decide_eq_true in Hin. exact Hin.
Qed.

Lemma codePoints_latin1 (s : jsstring) :
  Forall (fun u => (u < 256)%N) s -> codePoints s = map Unit s.
Proof.
  induction 1 as [|u rest Hu _ IH]; [reflexivity|].
  cbn [codePoints map]. rewrite IH.
  replace (isHigh u) with false; [destruct rest; reflexivity|].
  symmetry. unfold isHigh. apply andb_false_iff. left. apply N.leb_gt. lia.
Qed.

Lemma toLowerCase_latin1 (s : jsstring) :
  Forall (fun u => (u < 256)%N) s ->
  toLowerCase s = map lowerLatin1 s.
Proof.
  intros Hs. unfold toLowerCase. rewrite (codePoints_latin1 _ Hs).
  generalize false. induction Hs as [|u rest Hu _ IH]; intros afterCased;
    [reflexivity|].
  cbn [map lowerPoints]. rewrite IH, (lowerUnit_latin1 _ Hu).
  destruct (N.eqb_spec u 931) as [->|_]; [lia | reflexivity].
Qed.

(** ** Properties of the word factory *)

(** C5, as amended.  For every wordlist and every in-range index,
    [createWord] returns a word with one character per code unit of the
    lower-cased entry and trailing space: the entry's length plus 1, plus 1
    for each U+0130 in the entry, whose lower case is two code units long,
    hence the entry's length plus 1 whenever the entry has no U+0130; on
    code units below 256 (Basic Latin and Latin-1) each character is the
    lower case of the unit at its position.  Every [correct] is undefined,
    [streak] is 0, [match] and [hitTargetWPM] are false and there is no
    [startTime], [endTime] or [wpm]. *)
Theorem createWord_shape (list : list jsstring) (index : nat) (entry : jsstring) :
  list !! index = Some entry ->
  map character (characters (createWord list index))
  = split (toLowerCase (entry ++ lit " "))
  /\ length (characters (createWord list index))
     = (length entry + 1 + count_occ N.eq_dec entry 304%N)%nat
  /\ (~ In 304%N entry ->
      length (characters (createWord list index)) = (length entry + 1)%nat)
  /\ (Forall (fun u => (u < 256)%N) entry ->
      map character (characters (createWord list index))
      = map (fun u => [lowerLatin1 u]) (entry ++ lit " "))
  /\ Forall (fun c => correct c = None) (characters (createWord list index))
  /\ streak (createWord list index) = 0
  /\ match_ (createWord list index) = false
  /\ hitTargetWPM (createWord list index) = false
  /\ startTime (createWord list index) = None
  /\ endTime (createWord list index) = None
  /\ wpm (createWord list index) = None.
Proof.
  intros Hentry.
  assert (Hchars : map character (characters (createWord list index))
                   = split (toLowerCase (entry ++ lit " "))).
  { unfold createWord. rewrite Hentry. simpl template. cbn [characters].
    rewrite map_map. apply map_id. }
  assert (Hlength : length (characters (createWord list index))
                    = (length entry + 1 + count_occ N.eq_dec entry 304%N)%nat).
  { rewrite <- (length_map character), Hchars. unfold split.
    rewrite length_map, toLowerCase_length, length_app, count_occ_app.
    simpl. lia. }
  split; [exact Hchars|]. split; [exact Hlength|].
  split; [|split; [|split; [|repeat split]]].
  - intros Hplain. rewrite Hlength.
    apply (count_occ_not_In N.eq_dec) in Hplain. rewrite Hplain. lia.
  - intros Hlatin. rewrite Hchars, toLowerCase_latin1.
    + unfold split. rewrite map_map. reflexivity.
    + apply Forall_app. split; [exact Hlatin | repeat constructor].
  - unfold createWord. cbn [characters].
    apply Forall_map. apply Forall_true. reflexivity.
Qed.

Lemma createWord_shape_witness :
  map character (characters (createWord sampleList 0))
  = [lit "c"; lit "a"; lit "t"; lit " "]
  /\ length (characters (createWord sampleList 0)) = 4%nat.
Proof.
  destruct (createWord_shape sampleList 0 (lit "cat") eq_refl)
    as (Hchars & _ & Hlength & _).
  split; [exact Hchars|]. apply Hlength.
  vm_compute. intros [H|[H|[H|[]]]]; discriminate H.
Defined.

(** C5 fails as stated on an entry holding U+0130: its lower case is two
    code units long, so the word of the one-unit entry has three characters,
    not two. *)
Lemma createWord_dotted_capital_I :
  [[304%N]] !! 0%nat = Some [304%N]
  /\ length (characters (createWord [[304%N]] 0)) = 3%nat
  /\ (length [304%N] + 1)%nat = 2%nat.
Proof. repeat split. Qed.

(** ** Navigation and settings *)

Section Settings.

Variable en1000 : list jsstring.

(** C7.  With the overlay closed and [highestLevel] defined, [JUMP_FORWARDS]
    moves to [min(highestLevel, level + 1)], never above [highestLevel], and
    [JUMP_BACKWARDS] to [max(0, level - 1)], never below 0; both regenerate
    the word at the new level, clear the buffer and [finished], and stamp
    [lastSave]. *)
Theorem jump_clamped (now : Z) (st : State) (highest : nat) :
  showInstructions st = false ->
  highestLevel st = Some highest ->
  (exists forwards,
      reducer en1000 now st JUMP_FORWARDS = Ok forwards
      /\ level forwards = Nat.min highest (level st + 1)
      /\ (level forwards <= highest)%nat
      /\ word forwards = createWord (activeWordlist en1000 st) (level forwards)
      /\ buffer forwards = []
      /\ finished forwards = false
      /\ lastSave forwards = Some now)
  /\ (exists backwards,
      reducer en1000 now st JUMP_BACKWARDS = Ok backwards
      /\ Z.of_nat (level backwards) = Z.max 0 (Z.of_nat (level st) - 1)
      /\ 0 <= Z.of_nat (level backwards)
      /\ word backwards = createWord (activeWordlist en1000 st) (level backwards)
      /\ buffer backwards = []
      /\ finished backwards = false
      /\ lastSave backwards = Some now).
Proof.
  intros Hshow Hhigh. unfold reducer. rewrite Hshow, Hhigh. split.
  - eexists. split; [reflexivity|]. cbn. repeat split. lia.
  - eexists. split; [reflexivity|]. cbn. repeat split; lia.
Qed.

(** C8.  Two [TOGGLE_MUTED] in a row give back the original [muted], and
    the state differs from the original in [lastSave] at most. *)
Theorem toggle_muted_twice (now1 now2 : Z) (st : State) :
  exists once twice,
    reducer en1000 now1 st TOGGLE_MUTED = Ok once
    /\ reducer en1000 now2 once TOGGLE_MUTED = Ok twice
    /\ muted twice = muted st
    /\ twice = with_lastSave (Some now2) st.
Proof.
  do 2 eexists. split; [reflexivity|]. split; [reflexivity|].
  destruct st as [w l h b tw ts f ls si lw d c m]. cbn.
  rewrite negb_involutive. split; reflexivity.
Qed.

(** C10.  [SET_WORDLIST] returns a state whose [muted] is the initial
    state's, [true], whatever it was before, while the two targets and the
    dark-mode setting are kept. *)
Theorem set_wordlist_mutes (now : Z) (st : State) (list : list jsstring) :
  exists st',
    reducer en1000 now st (SET_WORDLIST list) = Ok st'
    /\ muted st' = muted (initialState en1000)
    /\ muted st' = true
    /\ targetWPM st' = targetWPM st
    /\ targetStreak st' = targetStreak st
    /\ darkMode st' = darkMode st.
Proof.
  eexists. split; [reflexivity|]. cbn. repeat split.
Qed.

End Settings.

Lemma jump_clamped_witness :
  exists forwards backwards,
    reducer sampleList 7 (with_highestLevel (Some 1%nat) sampleStart)
      JUMP_FORWARDS = Ok forwards
    /\ level forwards = 1%nat
    /\ reducer sampleList 7 (with_highestLevel (Some 1%nat) sampleStart)
         JUMP_BACKWARDS = Ok backwards
    /\ level backwards = 0%nat.
Proof.
  destruct (jump_clamped sampleList 7
              (with_highestLevel (Some 1%nat) sampleStart) 1 eq_refl eq_refl)
    as ((forwards & Hf & Hlevel & _) & (backwards & Hb & Hzero & _)).
  exists forwards, backwards.
  change (Z.of_nat (level backwards) = 0) in Hzero.
  repeat split; [exact Hf | exact Hlevel | exact Hb | lia].
Defined.

(** ** Words per minute *)

(** Rounding to binary64 never goes below the floor of the scaled
    magnitude. *)
Lemma round_half_even_floor (r : Q) : Qfloor r <= round_half_even r.
Proof.
  unfold round_half_even.
  destruct (r - inject_Z (Qfloor r) ?= 1 # 2)%Q; [destruct (Z.even _)| |]; lia.
Qed.

Lemma pow2_positive (k : Z) : (0 < 2 ^ k)%Q.
Proof. apply Qpower_0_lt. reflexivity. Qed.

Lemma magnitude64_nonneg (a : Q) : (0 <= a)%Q -> (0 <= magnitude64 a)%Q.
Proof.
  intros Ha. unfold magnitude64. cbv zeta.
  apply Qmult_le_0_compat; [|apply Qlt_le_weak, pow2_positive].
  rewrite <- (Zle_Qle 0).
  etransitivity; [|apply round_half_even_floor].
  change 0 with (Qfloor 0). apply Qfloor_resp_le.
  apply Qle_shift_div_l; [apply pow2_positive|].
  rewrite Qmult_0_l. exact Ha.
Qed.

(** The leading bit of a positive rational is found between the two
    candidates the logarithms of numerator and denominator leave. *)
Lemma pow2_log2_quotient (a : Q) :
  (0 < a)%Q ->
  (2 ^ (Z.log2 (Qnum a) - Z.log2 (Z.pos (Qden a)) - 1) <= a)%Q.
Proof.
  destruct a as [n d]. cbn [Qnum Qden]. intros Ha.
  assert (Hn : 0 < n).
  { unfold Qlt in Ha. cbn in Ha. lia. }
  pose proof (Z.log2_spec n Hn) as [Hlow _].
  pose proof (Z.log2_spec (Z.pos d) eq_refl) as [_ Hhigh].
  pose proof (Z.log2_nonneg n) as Hln.
  pose proof (Z.log2_nonneg (Z.pos d)) as Hld.
  set (ln := Z.log2 n) in *. set (ld := Z.log2 (Z.pos d)) in *.
  rewrite (Qmake_Qdiv n d).
  apply Qle_shift_div_l; [reflexivity|].
  apply Qle_trans with (2 ^ (ln - ld - 1) * 2 ^ (ld + 1))%Q.
  - apply Qmult_le_l; [apply pow2_positive|].
    rewrite <- (Zpower_Qpower 2 (ld + 1)) by lia.
    rewrite <- Zle_Qle. change (Z.succ ld) with (ld + 1) in Hhigh. lia.
  - rewrite <- Qpower_plus by discriminate.
    replace (ln - ld - 1 + (ld + 1)) with ln by lia.
    rewrite <- (Zpower_Qpower 2 ln) by lia.
    rewrite <- Zle_Qle. exact Hlow.
Qed.

Lemma ulp_exponent_below (a : Q) :
  (2 ^ (-1074) <= a)%Q -> (2 ^ ulp_exponent a <= a)%Q.
Proof.
  intros Ha. unfold ulp_exponent. cbv zeta.
  assert (Hpos : (0 < a)%Q).
  { eapply Qlt_le_trans; [apply (pow2_positive (-1074))|exact Ha]. }
  set (e0 := Z.log2 (Qnum a) - Z.log2 (Z.pos (Qden a))).
  assert (He : (2 ^ (if Qle_bool (2 ^ e0) a then e0 else e0 - 1) <= a)%Q).
  { destruct (Qle_bool (2 ^ e0) a) eqn:Htest.
    - apply Qle_bool_iff. exact Htest.
    - apply pow2_log2_quotient. exact Hpos. }
  set (e := if Qle_bool (2 ^ e0) a then e0 else e0 - 1) in *.
  destruct (Z.max_spec (e - 52) (-1074)) as [[_ ->]|[_ ->]]; [exact Ha|].
  eapply Qle_trans; [|exact He].
  apply Qpower_le_compat_l; [lia | discriminate].
Qed.

Lemma magnitude64_positive (a : Q) :
  (2 ^ (-1074) <= a)%Q -> (0 < magnitude64 a)%Q.
Proof.
  intros Ha. unfold magnitude64. cbv zeta.
  apply Qmult_lt_0_compat; [|apply pow2_positive].
  rewrite <- (Zlt_Qlt 0).
  eapply Z.lt_le_trans; [|apply round_half_even_floor].
  assert (1 <= Qfloor (a / 2 ^ ulp_exponent a)); [|lia].
  change 1 with (Qfloor 1). apply Qfloor_resp_le.
  apply Qle_shift_div_l; [apply pow2_positive|].
  rewrite Qmult_1_l. apply ulp_exponent_below. exact Ha.
Qed.

Lemma Qnegative_nonneg (q : Q) : (0 <= q)%Q -> Qnegative q = false.
Proof.
  intros Hq. unfold Qnegative. apply Qle_bool_iff in Hq. rewrite Hq. reflexivity.
Qed.

Lemma Qnegative_negative (q : Q) : (q < 0)%Q -> Qnegative q = true.
Proof.
  intros Hq. unfold Qnegative. destruct (Qle_bool 0 q) eqn:Hle; [|reflexivity].
  apply Qle_bool_iff in Hle. exfalso. exact (Qlt_not_le _ _ Hq Hle).
Qed.

(** Rounding keeps the sign, and keeps away from zero what is at least the
    smallest positive double in magnitude. *)
Lemma round64_nonneg (q : Q) :
  (0 <= q)%Q ->
  round64 q = Infinity false
  \/ exists v, round64 q = Finite v /\ (0 <= v)%Q.
Proof.
  intros Hq. unfold round64.
  destruct (Qeq_bool q 0); [right; exists 0%Q; split; [reflexivity|apply Qle_refl]|].
  cbv zeta. rewrite (Qnegative_nonneg _ Hq).
  destruct (Qle_bool _ _); [left; reflexivity|].
  right. eexists. split; [reflexivity|].
  apply magnitude64_nonneg, Qabs_nonneg.
Qed.

Lemma round64_nonpos (q : Q) :
  (q <= 0)%Q ->
  round64 q = Infinity true
  \/ exists v, round64 q = Finite v /\ (v <= 0)%Q.
Proof.
  intros Hq. unfold round64.
  destruct (Qeq_bool q 0) eqn:Hzero;
    [right; exists 0%Q; split; [reflexivity|apply Qle_refl]|].
  apply Qeq_bool_neq in Hzero.
  assert (Hneg : (q < 0)%Q).
  { apply Qle_lteq in Hq. destruct Hq as [Hlt|Heq]; [exact Hlt|contradiction]. }
  cbv zeta. rewrite (Qnegative_negative _ Hneg).
  destruct (Qle_bool _ _); [left; reflexivity|].
  right. eexists. split; [reflexivity|].
  apply (Qopp_le_compat 0). apply magnitude64_nonneg, Qabs_nonneg.
Qed.

Lemma round64_positive (q : Q) :
  (2 ^ (-1074) <= q)%Q ->
  round64 q = Infinity false
  \/ exists v, round64 q = Finite v /\ (0 < v)%Q.
Proof.
  intros Hq.
  assert (Hpos : (0 < q)%Q).
  { eapply Qlt_le_trans; [apply (pow2_positive (-1074))|exact Hq]. }
  unfold round64.
  destruct (Qeq_bool q 0) eqn:Hzero.
  { apply Qeq_bool_eq in Hzero. rewrite Hzero in Hpos.
    exfalso. exact (Qlt_irrefl 0 Hpos). }
  cbv zeta. rewrite (Qnegative_nonneg _ (Qlt_le_weak _ _ Hpos)).
  destruct (Qle_bool _ _); [left; reflexivity|].
  right. eexists. split; [reflexivity|].
  apply magnitude64_positive. apply Qabs_ge. exact Hq.
Qed.

Lemma round64_negative (q : Q) :
  (q <= - 2 ^ (-1074))%Q ->
  round64 q = Infinity true
  \/ exists v, round64 q = Finite v /\ (v < 0)%Q.
Proof.
  intros Hq.
  assert (Hneg : (q < 0)%Q).
  { eapply Qle_lt_trans; [exact Hq|]. apply (Qopp_lt_compat 0).
    apply pow2_positive. }
  unfold round64.
  destruct (Qeq_bool q 0) eqn:Hzero.
  { apply Qeq_bool_eq in Hzero. rewrite Hzero in Hneg.
    exfalso. exact (Qlt_irrefl 0 Hneg). }
  cbv zeta. rewrite (Qnegative_negative _ Hneg).
  destruct (Qle_bool _ _); [left; reflexivity|].
  right. eexists. split; [reflexivity|].
  apply (Qopp_lt_compat 0). apply magnitude64_positive.
  rewrite <- Qabs_opp. apply Qabs_ge.
  apply Qopp_le_compat in Hq. rewrite Qopp_involutive in Hq. exact Hq.
Qed.

(** A count of characters over five and a time over sixty thousand. *)
Lemma fifth_nonneg (n : nat) :
  float_div (of_Z (Z.of_nat n)) (of_Z 5) = Infinity false
  \/ exists v, float_div (of_Z (Z.of_nat n)) (of_Z 5) = Finite v /\ (0 <= v)%Q.
Proof.
  unfold float_div, of_Z, num_div.
  change (Qeq_bool (inject_Z 5) 0) with false. cbv iota.
  apply round64_nonneg. apply Qle_shift_div_l; [reflexivity|].
  rewrite Qmult_0_l, <- (Zle_Qle 0). lia.
Qed.

Lemma fifth_positive (n : nat) :
  (0 < n)%nat ->
  float_div (of_Z (Z.of_nat n)) (of_Z 5) = Infinity false
  \/ exists v, float_div (of_Z (Z.of_nat n)) (of_Z 5) = Finite v /\ (0 < v)%Q.
Proof.
  intros Hn. unfold float_div, of_Z, num_div.
  change (Qeq_bool (inject_Z 5) 0) with false. cbv iota.
  apply round64_positive. apply Qle_shift_div_l; [reflexivity|].
  apply Qle_trans with (inject_Z 1).
  - vm_compute. discriminate.
  - rewrite <- Zle_Qle. lia.
Qed.

Lemma minutes_negative (elapsed : Z) :
  elapsed < 0 ->
  float_div (of_Z elapsed) (of_Z 60000) = Infinity true
  \/ exists v, float_div (of_Z elapsed) (of_Z 60000) = Finite v /\ (v < 0)%Q.
Proof.
  intros He. unfold float_div, of_Z, num_div.
  change (Qeq_bool (inject_Z 60000) 0) with false. cbv iota.
  apply round64_negative. apply Qle_shift_div_r; [reflexivity|].
  apply Qle_trans with (inject_Z (-1)).
  - rewrite <- Zle_Qle. lia.
  - vm_compute. discriminate.
Qed.

(** A non-empty buffer finished in no time at all: the quotient is
    [+Infinity]. *)
Lemma wpm_of_zero_elapsed (now : Z) (start : option Z) (n : nat) :
  now - default 0 start = 0 ->
  (0 < n)%nat ->
  wpm_of now start n = Infinity false.
Proof.
  intros Hzero Hn. unfold wpm_of. rewrite Hzero. cbv zeta.
  change (float_div (of_Z 0) (of_Z 60000)) with (Finite 0).
  destruct (fifth_positive n Hn) as [->|(v & -> & Hv)]; [reflexivity|].
  unfold float_div, num_div. change (Qeq_bool 0 0) with true. cbv iota.
  destruct (Qeq_bool v 0) eqn:Hzero'.
  - apply Qeq_bool_eq in Hzero'. rewrite Hzero' in Hv.
    exfalso. exact (Qlt_irrefl 0 Hv).
  - rewrite (Qnegative_nonneg _ (Qlt_le_weak _ _ Hv)). reflexivity.
Qed.

(** A clock that ran backwards: the quotient is negative, zero or NaN. *)
Lemma wpm_of_backwards (now : Z) (start : option Z) (n : nat) (target : Z) :
  0 < target ->
  now - default 0 start < 0 ->
  num_ge (wpm_of now start n) (of_Z target) = false.
Proof.
  intros Htarget Hneg. unfold wpm_of. cbv zeta.
  assert (Hlow : forall w, (w <= 0)%Q ->
            num_ge (Math_round (Finite w)) (of_Z target) = false).
  { intros w Hw. unfold Math_round, of_Z, num_ge.
    apply not_true_is_false. rewrite Qle_bool_iff, <- Zle_Qle. intros Hle.
    assert (Qfloor (w + (1 # 2)) <= Qfloor (1 # 2));
      [|change (Qfloor (1 # 2)) with 0 in *; lia].
    apply Qfloor_resp_le. rewrite <- (Qplus_0_l (1 # 2)) at 2.
    apply Qplus_le_l. exact Hw. }
  destruct (minutes_negative _ Hneg) as [->|(y & -> & Hy)];
    destruct (fifth_nonneg n) as [->|(x & -> & Hx)].
  - reflexivity.
  - change (float_div (Finite x) (Infinity true)) with (Finite 0).
    apply Hlow. apply Qle_refl.
  - unfold float_div, num_div. rewrite (Qnegative_negative _ Hy). reflexivity.
  - unfold float_div, num_div.
    destruct (Qeq_bool y 0) eqn:Hzero.
    { apply Qeq_bool_eq in Hzero. rewrite Hzero in Hy.
      exfalso. exact (Qlt_irrefl 0 Hy). }
    assert (Hquot : (x / y <= 0)%Q).
    { destruct x as [xn xd], y as [yn yd].
      unfold Qle, Qlt, Qdiv, Qmult, Qinv in *. cbn [Qnum Qden] in *.
      destruct yn as [|yp|yp]; cbn [Qnum Qden] in *; nia. }
    destruct (round64_nonpos _ Hquot) as [->|(w & -> & Hw)];
      [reflexivity | apply Hlow; exact Hw].
Qed.

(** The same quotients through the standard library's specification of
    IEEE 754 arithmetic, [SpecFloat.SFdiv] at precision 53. *)
Definition double_of_Z (z : Z) : SpecFloat.spec_float :=
  SpecFloat.binary_normalize 53 1024 z 0 false.

Definition number_of_double (x : SpecFloat.spec_float) : number :=
  match x with
  | SpecFloat.S754_zero _ => Finite 0
  | SpecFloat.S754_infinity s => Infinity s
  | SpecFloat.S754_nan => NaN
  | SpecFloat.S754_finite s m e =>
      Finite ((if s then -1 else 1) * inject_Z (Z.pos m) * 2 ^ e)
  end.

Definition wpm_of_SpecFloat (now : Z) (start : option Z) (length : nat)
    : number :=
  let timeElapsed :=
    SpecFloat.SFdiv 53 1024 (double_of_Z (now - default 0 start))
      (double_of_Z 60000) in
  Math_round
    (number_of_double
       (SpecFloat.SFdiv 53 1024
          (SpecFloat.SFdiv 53 1024 (double_of_Z (Z.of_nat length))
             (double_of_Z 5))
          timeElapsed)).

Definition same_number (x y : number) : bool :=
  match x, y with
  | Finite p, Finite q => Qeq_bool p q
  | Infinity a, Infinity b => Bool.eqb a b
  | NaN, NaN => true
  | _, _ => false
  end.

(** [wpm_of] computes what [SpecFloat] does: checked for words of up to 30
    characters, at every elapsed time from -2 ms to 60 ms and at every
    multiple of 480 ms up to 48 s. *)
Example wpm_of_as_SpecFloat :
  forallb (fun n =>
     forallb (fun elapsed =>
        same_number (wpm_of elapsed (Some 0) n)
          (wpm_of_SpecFloat elapsed (Some 0) n))
       (map (fun i => Z.of_nat i - 2) (seq 0 63)
        ++ map (fun i => 480 * Z.of_nat i) (seq 1 100)))
    (seq 0 31)
  = true.
Proof. vm_compute. reflexivity. Qed.

(** [+Infinity] is at least every target. *)
Lemma infinity_hits (target : Z) :
  num_ge (Infinity false) (of_Z target) = true.
Proof. reflexivity. Qed.

(** Away from NaN, [<] is the negation of [>=]. *)
Lemma num_lt_ge (x : number) (target : Z) :
  x <> NaN ->
  num_lt x (of_Z target) = negb (num_ge x (of_Z target)).
Proof.
  intros Hx. destruct x as [q|neg|]; simpl;
    [reflexivity | rewrite negb_involutive; reflexivity | congruence].
Qed.

(** ** Typing, completion and replay *)

Section Typing.

Variable en1000 : list jsstring.

(** Past its four guards, [APPEND_BUFFER] runs the evaluator. *)
Ltac pass_guards Hshow Hfin Hspace Hstreak :=
  unfold reducer, append_buffer;
  rewrite Hshow, Hfin, (leading_space_guard _ _ Hspace),
    (streak_guard _ Hstreak).

(** C1, as amended.  In the Typing phase (overlay closed, not finished,
    streak below the target), every keystroke other than a space on an empty
    buffer after which some typed character differs from the word's
    character at its position empties the buffer, sets the streak to 0,
    [endTime] to the current time, [wpm] to 0, [match] and [hitTargetWPM] to
    false, and keeps the level, whatever the streak was. *)
Theorem mismatch_resets (now : Z) (st : State) (payload : jsstring) :
  showInstructions st = false ->
  finished st = false ->
  streak (word st) < targetStreak st ->
  ~ (buffer st = [] /\ payload = lit " ") ->
  differs (buffer st ++ payload) (characters (word st)) ->
  exists st',
    reducer en1000 now st (APPEND_BUFFER payload) = Ok st'
    /\ buffer st' = []
    /\ streak (word st') = 0
    /\ endTime (word st') = Some now
    /\ wpm (word st') = Some (Finite 0)
    /\ match_ (word st') = false
    /\ hitTargetWPM (word st') = false
    /\ level st' = level st.
Proof.
  intros Hshow Hfin Hstreak Hspace Hdiff.
  pass_guards Hshow Hfin Hspace Hstreak.
  rewrite (every_character_differs _ _ Hdiff). cbv zeta. cbn [negb].
  eexists. split; [reflexivity|]. repeat split.
Qed.

(** C2.  When the keystroke completes the word and brings the streak to the
    target: on the last index of the active wordlist the state becomes
    finished, and a finished state is returned unchanged by every
    [APPEND_BUFFER]; otherwise the level goes up by one, [highestLevel]
    becomes the larger of its old value and the new level, the word is the
    factory's at the new level, the buffer is empty and [lastSave] is the
    current time. *)
Theorem level_advance (now : Z) (st : State) (payload : jsstring) :
  showInstructions st = false ->
  finished st = false ->
  streak (word st) < targetStreak st ->
  ~ (buffer st = [] /\ payload = lit " ") ->
  endTime (word st) = None ->
  matches (buffer st ++ payload) (characters (word st)) ->
  (length (characters (word st)) <= length (buffer st ++ payload))%nat ->
  earned now st payload >= targetStreak st ->
  exists st',
    reducer en1000 now st (APPEND_BUFFER payload) = Ok st'
    /\ ((level st + 1)%nat = length (activeWordlist en1000 st) ->
        finished st' = true)
    /\ ((level st + 1)%nat <> length (activeWordlist en1000 st) ->
        level st' = (level st + 1)%nat
        /\ highestLevel st'
           = Some (Nat.max (default 0%nat (highestLevel st)) (level st'))
        /\ word st' = createWord (activeWordlist en1000 st) (level st')
        /\ buffer st' = []
        /\ lastSave st' = Some now)
    /\ (forall later key finishedState,
          finished finishedState = true ->
          reducer en1000 later finishedState (APPEND_BUFFER key)
          = Ok finishedState).
Proof.
  intros Hshow Hfin Hstreak Hspace Hend Hmatch Hfull Hearned.
  pass_guards Hshow Hfin Hspace Hstreak.
  apply every_character_matches in Hmatch. rewrite Hmatch.
  cbv zeta. cbn [negb]. rewrite Hend. cbn [undefined andb].
  apply Nat.leb_le in Hfull. rewrite Hfull.
  fold (earned now st payload).
  replace (earned now st payload >=? targetStreak st) with true
    by (symmetry; rewrite Z.geb_leb; apply Z.leb_le; lia).
  assert (Hdone : forall later key finishedState,
             finished finishedState = true ->
             append_buffer en1000 later finishedState key = Ok finishedState).
  { intros later key s Hs. unfold append_buffer. rewrite Hs.
    destruct (showInstructions s); reflexivity. }
  destruct (Nat.eqb_spec (level st + 1) (length (activeWordlist en1000 st)))
    as [Hlast|Hmore].
  - eexists. split; [reflexivity|]. split; [reflexivity|].
    split; [contradiction | exact Hdone].
  - eexists. split; [reflexivity|]. split; [contradiction|].
    split; [|exact Hdone]. intros _. repeat split.
Qed.

(** What a completing keystroke returns. *)
Lemma completes_runs (now : Z) (st : State) (payload : jsstring) :
  completes st payload ->
  append_buffer en1000 now st payload
  = if earned now st payload >=? targetStreak st then
      if (level st + 1 =? length (activeWordlist en1000 st))%nat
      then Ok (with_lastSave (Some now) (with_finished true st))
      else
        Ok (with_lastSave (Some now)
             (with_buffer []
                (with_word
                   (createWord (activeWordlist en1000 st) (level st + 1))
                   (with_highestLevel
                      (Some (Nat.max (default 0%nat (highestLevel st))
                                     (level st + 1)))
                      (with_level (level st + 1) st)))))
    else
      let speed :=
        wpm_of now (startTime (word st)) (length (buffer st ++ payload)) in
      Ok (with_lastWPM (Some speed)
           (with_word
              {| characters := mark (buffer st ++ payload) (characters (word st));
                 startTime := startTime (word st);
                 endTime := Some now;
                 wpm := Some speed;
                 hitTargetWPM := num_ge speed (of_Z (targetWPM st));
                 match_ := true;
                 streak := earned now st payload |}
              (with_buffer [] st))).
Proof.
  intros (Hshow & Hfin & Hspace & Hstreak & Hend & Hmatch & Hfull).
  unfold append_buffer.
  rewrite Hshow, Hfin, (leading_space_guard _ _ Hspace),
    (streak_guard _ Hstreak).
  apply every_character_matches in Hmatch. rewrite Hmatch.
  cbv zeta. cbn [negb]. rewrite Hend. cbn [undefined andb].
  apply Nat.leb_le in Hfull. rewrite Hfull.
  fold (earned now st payload). reflexivity.
Qed.

(** C3, as amended.  After every action other than [LOAD_STATE] and
    [SET_WORD] the streak is 0, the previous streak, or the previous streak
    plus 1.  It is a value other than 0 and the previous streak, namely the
    previous streak plus 1, only after a keystroke that completes the word
    at the target words per minute or more.  A keystroke that completes the
    word leaves the streak the attempt earns, the previous streak plus 1 at
    the target words per minute or more and 0 below; unless that reaches the
    target streak, where the next level starts at 0, or, on the last level,
    the session is finished and the word and its streak stay as they
    were.  Every other transition leaves 0 or the previous streak. *)
Theorem streak_step (now : Z) (st st' : State) (action : Action) :
  (forall payload, action <> LOAD_STATE payload) ->
  (forall payload, action <> SET_WORD payload) ->
  reducer en1000 now st action = Ok st' ->
  (streak (word st') = 0
   \/ streak (word st') = streak (word st)
   \/ streak (word st') = streak (word st) + 1)
  /\ (streak (word st') <> 0 ->
      streak (word st') <> streak (word st) ->
      exists payload,
        action = APPEND_BUFFER payload
        /\ completes st payload
        /\ length (buffer st ++ payload) = length (characters (word st))
        /\ num_ge (wpm_of now (startTime (word st))
                     (length (buffer st ++ payload)))
                  (of_Z (targetWPM st)) = true
        /\ streak (word st') = streak (word st) + 1)
  /\ (forall payload,
        action = APPEND_BUFFER payload ->
        completes st payload ->
        if earned now st payload >=? targetStreak st then
          if (level st + 1 =? length (activeWordlist en1000 st))%nat
          then finished st' = true /\ word st' = word st
          else finished st' = false
               /\ level st' = (level st + 1)%nat
               /\ streak (word st') = 0
        else streak (word st') = earned now st payload)
  /\ ((forall payload, action = APPEND_BUFFER payload -> ~ completes st payload) ->
      streak (word st') = 0 \/ streak (word st') = streak (word st)).
Proof.
  intros Hload Hset Hstep.
  assert (Hraised :
            (streak (word st') = 0
             \/ streak (word st') = streak (word st)
             \/ streak (word st') = streak (word st) + 1)
            /\ (streak (word st') <> 0 ->
                streak (word st') <> streak (word st) ->
                exists payload,
                  action = APPEND_BUFFER payload
                  /\ completes st payload
                  /\ length (buffer st ++ payload) = length (characters (word st))
                  /\ num_ge (wpm_of now (startTime (word st))
                               (length (buffer st ++ payload)))
                            (of_Z (targetWPM st)) = true
                  /\ streak (word st') = streak (word st) + 1)).
  { destruct action as [payload| | | | |loaded| | |chars|goal|goal|w|list| | | ];
      try (exfalso; eapply Hload; reflexivity);
      try (exfalso; eapply Hset; reflexivity);
      simpl in Hstep.
    1: {
      unfold append_buffer in Hstep.
      destruct (showInstructions st) eqn:Hshow;
        [simplify_eq; split; [auto|]; intros; congruence|].
      destruct (finished st) eqn:Hfin;
        [simplify_eq; split; [auto|]; intros; congruence|].
      destruct ((length (buffer st) =? 0)%nat
                && bool_decide (payload = lit " ")) eqn:Hspace;
        [simplify_eq; split; [auto|]; intros; congruence|].
      destruct (streak (word st) >=? targetStreak st) eqn:Hguard;
        [simplify_eq; split; [auto|]; intros; congruence|].
      cbv zeta in Hstep.
      destruct (every_character (buffer st ++ payload) (characters (word st)))
        as [[|]|] eqn:Hevery.
      2, 3: repeat case_match; simplify_eq; cbn; split; auto; intros; congruence.
      destruct (num_ge (wpm_of now (startTime (word st))
                          (length (buffer st ++ payload)))
                       (of_Z (targetWPM st))) eqn:Hhit;
      repeat case_match; simplify_eq; cbn; (split; [auto|]);
        intros Hnz Hne; try congruence.
      exists payload.
      match goal with
      | H : undefined _ && _ = true |- _ =>
          apply andb_true_iff in H; destruct H as [Hundef Hfull]
      end.
      apply every_character_matches in Hevery.
      apply Nat.leb_le in Hfull. pose proof (matches_length _ _ Hevery).
      destruct (endTime (word st)) eqn:Hend; [discriminate|].
      split; [reflexivity|]. split; [|repeat split; [lia | exact Hhit]].
      repeat split; try assumption.
      - intros [Hempty ->]. rewrite Hempty in Hspace. discriminate Hspace.
      - rewrite Z.geb_leb in Hguard. apply Z.leb_gt in Hguard. exact Hguard.
    }
    all: repeat case_match; simplify_eq; cbn; split; auto; intros; congruence. }
  destruct Hraised as [Hvalues Honly].
  split; [exact Hvalues|]. split; [exact Honly|]. split.
  - intros payload -> Hcompletes. simpl in Hstep.
    rewrite (completes_runs _ _ _ Hcompletes) in Hstep.
    destruct Hcompletes as (_ & Hfin & _).
    destruct (earned now st payload >=? targetStreak st).
    + destruct (level st + 1 =? length (activeWordlist en1000 st))%nat;
        injection Hstep as <-.
      * split; reflexivity.
      * repeat split. exact Hfin.
    + injection Hstep as <-. reflexivity.
  - intros Hother.
    destruct (Z.eq_dec (streak (word st')) 0) as [Hzero|Hnz]; [left; exact Hzero|].
    destruct (Z.eq_dec (streak (word st')) (streak (word st))) as [Hsame|Hne];
      [right; exact Hsame|].
    destruct (Honly Hnz Hne) as (payload & Haction & Hcompletes & _).
    exfalso. exact (Hother payload Haction Hcompletes).
Qed.

(** C4, as amended.  In the AwaitingConfirm phase (overlay closed, not
    finished, [endTime] and [wpm] defined, [wpm] not NaN, streak below the
    target), a keystroke that is not a space on an empty buffer and after
    which the buffer matches the word starts a replay: the factory's word at
    the same level with the keystroke marked on it, the buffer holding just
    the keystroke, [startTime] the current time; the streak is carried over
    when the completed attempt had [match] true and [wpm] at the target or
    more, and is 0 otherwise. *)
Theorem replay_after_completion (now : Z) (st : State) (payload : jsstring)
    (finish : Z) (previous : number) :
  showInstructions st = false ->
  finished st = false ->
  endTime (word st) = Some finish ->
  wpm (word st) = Some previous ->
  previous <> NaN ->
  streak (word st) < targetStreak st ->
  ~ (buffer st = [] /\ payload = lit " ") ->
  matches (buffer st ++ payload) (characters (word st)) ->
  exists st',
    reducer en1000 now st (APPEND_BUFFER payload) = Ok st'
    /\ characters (word st')
       = mark payload
           (characters (createWord (activeWordlist en1000 st) (level st)))
    /\ startTime (word st') = Some now
    /\ endTime (word st') = None
    /\ wpm (word st') = None
    /\ match_ (word st') = false
    /\ hitTargetWPM (word st') = false
    /\ buffer st' = payload
    /\ level st' = level st
    /\ streak (word st')
       = if match_ (word st) && num_ge previous (of_Z (targetWPM st))
         then streak (word st)
         else 0.
Proof.
  intros Hshow Hfin Hend Hwpm Hnan Hstreak Hspace Hmatch.
  pass_guards Hshow Hfin Hspace Hstreak.
  apply every_character_matches in Hmatch. rewrite Hmatch.
  cbv zeta. cbn [negb]. rewrite Hend, Hwpm. cbn [undefined andb].
  rewrite (num_lt_ge _ _ Hnan).
  replace (streak (word st) <? targetStreak st) with true
    by (symmetry; apply Z.ltb_lt; exact Hstreak).
  destruct (match_ (word st)); cbn [negb orb andb];
    [destruct (num_ge previous (of_Z (targetWPM st))); cbn [negb]|];
    (eexists; split; [reflexivity|]; repeat split).
Qed.

(** C6, as amended.  When a keystroke completes a non-empty word with no
    time elapsed since [startTime], nothing faults: the quotient is
    [+Infinity], which counts as meeting the target, so the attempt earns
    the previous streak plus 1; while that stays below the target streak the
    returned word records [wpm] [+Infinity], [hitTargetWPM] true and the
    incremented streak. *)
Theorem zero_elapsed_hits (now : Z) (st : State) (payload : jsstring) :
  showInstructions st = false ->
  finished st = false ->
  streak (word st) < targetStreak st ->
  ~ (buffer st = [] /\ payload = lit " ") ->
  endTime (word st) = None ->
  matches (buffer st ++ payload) (characters (word st)) ->
  (length (characters (word st)) <= length (buffer st ++ payload))%nat ->
  buffer st ++ payload <> [] ->
  now - default 0 (startTime (word st)) = 0 ->
  wpm_of now (startTime (word st)) (length (buffer st ++ payload))
  = Infinity false
  /\ earned now st payload = streak (word st) + 1
  /\ exists st',
       reducer en1000 now st (APPEND_BUFFER payload) = Ok st'
       /\ (streak (word st) + 1 < targetStreak st ->
           wpm (word st') = Some (Infinity false)
           /\ hitTargetWPM (word st') = true
           /\ streak (word st') = streak (word st) + 1
           /\ endTime (word st') = Some now).
Proof.
  intros Hshow Hfin Hstreak Hspace Hend Hmatch Hfull Hkeys Hzero.
  assert (Hinf : wpm_of now (startTime (word st))
                   (length (buffer st ++ payload)) = Infinity false).
  { apply wpm_of_zero_elapsed; [exact Hzero|].
    destruct (buffer st ++ payload); [congruence | simpl; lia]. }
  assert (Hearned : earned now st payload = streak (word st) + 1).
  { unfold earned. rewrite Hinf, infinity_hits. reflexivity. }
  split; [exact Hinf|]. split; [exact Hearned|].
  pass_guards Hshow Hfin Hspace Hstreak.
  apply every_character_matches in Hmatch. rewrite Hmatch.
  cbv zeta. cbn [negb]. rewrite Hend. cbn [undefined andb].
  apply Nat.leb_le in Hfull. rewrite Hfull.
  rewrite Hinf, infinity_hits.
  destruct (Z.geb_spec (streak (word st) + 1) (targetStreak st)) as [Hge|Hlt].
  - destruct (level st + 1 =? length (activeWordlist en1000 st))%nat;
      (eexists; split; [reflexivity|]; intros; lia).
  - eexists. split; [reflexivity|]. intros _. repeat split.
Qed.

(** The reducer returns a state unless an [APPEND_BUFFER] runs past the end
    of the word. *)
Lemma reducer_returns (now : Z) (st : State) (action : Action) :
  match action with
  | APPEND_BUFFER payload =>
      (length (buffer st ++ payload) <= length (characters (word st)))%nat
  | _ => True
  end ->
  exists st', reducer en1000 now st action = Ok st'.
Proof.
  destruct action; intros Hfits; simpl; try (repeat case_match; eauto; fail).
  unfold append_buffer. cbv zeta.
  destruct (every_from_fits (buffer st ++ payload) (characters (word st)) 0)
    as [matched Hmatched]; [simpl; lia|].
  unfold every_character. rewrite Hmatched.
  repeat case_match; eauto.
Qed.

(** C9.  From a state whose [highestLevel] is defined and at least [level],
    every action other than [LOAD_STATE] leads to a state in which
    [highestLevel] is again defined and at least [level]; and the action
    does lead to a state whenever it is not an [APPEND_BUFFER] running past
    the end of the word. *)
Theorem level_within_highest (now : Z) (st : State) (action : Action)
    (highest : nat) :
  highestLevel st = Some highest ->
  (level st <= highest)%nat ->
  (forall payload, action <> LOAD_STATE payload) ->
  (forall st',
      reducer en1000 now st action = Ok st' ->
      exists highest',
        highestLevel st' = Some highest' /\ (level st' <= highest')%nat)
  /\ (match action with
      | APPEND_BUFFER payload =>
          (length (buffer st ++ payload) <= length (characters (word st)))%nat
      | _ => True
      end ->
      exists st', reducer en1000 now st action = Ok st').
Proof.
  intros Hhigh Hlevel Hload. split; [|apply reducer_returns].
  intros st' Hstep.
  destruct action as [payload| | | | |loaded| | |chars|goal|goal|w|list| | | ];
    try (exfalso; eapply Hload; reflexivity);
    simpl in Hstep.
  1: unfold append_buffer in Hstep; cbv zeta in Hstep.
  all: rewrite ?Hhigh in Hstep; repeat case_match; simplify_eq; cbn;
    rewrite ?Hhigh; eexists; (split; [reflexivity|]); cbn; lia.
Qed.

End Typing.

(** ** The theorems at work on sample sessions *)

Lemma mismatch_resets_witness :
  exists st',
    reducer sampleList 250 (sampleTyping 0 (lit "ca") (Some 0) 3 5)
      (APPEND_BUFFER (lit "x")) = Ok st'
    /\ buffer st' = []
    /\ streak (word st') = 0
    /\ endTime (word st') = Some 250
    /\ wpm (word st') = Some (Finite 0)
    /\ match_ (word st') = false
    /\ hitTargetWPM (word st') = false
    /\ level st' = 0%nat.
Proof.
  apply (mismatch_resets sampleList 250
           (sampleTyping 0 (lit "ca") (Some 0) 3 5) (lit "x")).
  - reflexivity.
  - reflexivity.
  - reflexivity.
  - intros [Hempty _]. discriminate Hempty.
  - exists 2%nat, 120%N, {| character := lit "t"; correct := None |}.
    repeat split. discriminate.
Defined.

(** C1 fails as stated on a space typed on an empty buffer.  At the start of
    a session the space differs from the first character of the word, yet
    the state comes back as it was, with [endTime] and [wpm] still
    undefined; and after the word was completed twice, the space leaves the
    streak of 2 and the old [endTime] in place. *)
Lemma leading_space_is_ignored :
  let start := with_targetStreak 5 sampleStart in
  (showInstructions start = false
   /\ finished start = false
   /\ streak (word start) < targetStreak start
   /\ ~ matches (buffer start ++ lit " ") (characters (word start))
   /\ reducer sampleList 2000 start (APPEND_BUFFER (lit " ")) = Ok start
   /\ endTime (word start) = None
   /\ wpm (word start) = None)
  /\ (dispatchAll sampleList start sampleTwice = Ok sampleAwaiting
      /\ showInstructions sampleAwaiting = false
      /\ finished sampleAwaiting = false
      /\ streak (word sampleAwaiting) < targetStreak sampleAwaiting
      /\ ~ matches (buffer sampleAwaiting ++ lit " ")
             (characters (word sampleAwaiting))
      /\ reducer sampleList 2000 sampleAwaiting (APPEND_BUFFER (lit " "))
         = Ok sampleAwaiting
      /\ streak (word sampleAwaiting) = 2
      /\ endTime (word sampleAwaiting) = Some 1300).
Proof.
  assert (Hspace : forall st,
             characters (word st) = characters (createWord sampleList 0)
             \/ characters (word st)
                = mark (lit "cat ") (characters (createWord sampleList 0)) ->
             buffer st = [] ->
             ~ matches (buffer st ++ lit " ") (characters (word st))).
  { intros st Hchars Hbuffer Hm. rewrite Hbuffer in Hm.
    destruct (Hm 0%nat 32%N eq_refl) as (c & Hc & Hu).
    destruct Hchars as [E|E]; rewrite E in Hc;
      injection Hc as <-; discriminate Hu. }
  cbv zeta. split.
  - repeat split. apply Hspace; [left|]; reflexivity.
  - repeat split. apply Hspace; [right|]; reflexivity.
Qed.

Lemma level_advance_witness :
  exists st',
    reducer sampleList 300 (sampleTyping 0 (lit "cat") (Some 0) 0 1)
      (APPEND_BUFFER (lit " ")) = Ok st'
    /\ level st' = 1%nat
    /\ highestLevel st' = Some 1%nat
    /\ word st' = createWord sampleList 1
    /\ buffer st' = []
    /\ lastSave st' = Some 300.
Proof.
  destruct (level_advance sampleList 300
              (sampleTyping 0 (lit "cat") (Some 0) 0 1) (lit " "))
    as (st' & Hstep & _ & Hmore & _).
  - reflexivity.
  - reflexivity.
  - reflexivity.
  - intros [Hempty _]. discriminate Hempty.
  - reflexivity.
  - apply every_character_matches. reflexivity.
  - vm_compute. lia.
  - vm_compute. discriminate.
  - exists st'. split; [exact Hstep|].
    destruct Hmore as (Hlevel & Hhigh & Hword & Hbuffer & Hsave).
    + vm_compute. lia.
    + rewrite Hhigh, Hword, Hlevel. repeat split; assumption.
Defined.

Lemma streak_step_witness :
  exists st',
    reducer sampleList 300 (sampleTyping 0 (lit "cat") (Some 0) 0 5)
      (APPEND_BUFFER (lit " ")) = Ok st'
    /\ streak (word st')
       = streak (word (sampleTyping 0 (lit "cat") (Some 0) 0 5)) + 1.
Proof.
  eexists. split; [lazy; reflexivity|].
  match goal with
  | |- streak (word ?after) = _ =>
      destruct (streak_step sampleList 300
                  (sampleTyping 0 (lit "cat") (Some 0) 0 5) after
                  (APPEND_BUFFER (lit " ")))
        as (_ & Hup & _)
  end.
  - intros payload. discriminate.
  - intros payload. discriminate.
  - reflexivity.
  - destruct Hup as (payload & _ & _ & _ & _ & Hone);
      [vm_compute; lia | vm_compute; lia | exact Hone].
Defined.

(** C3 fails as stated wherever the word is left as it was.  On the
    keystroke that finishes the session: with a streak of 1 out of 2 on the
    last word, completing it on time sets [finished] and leaves the word as
    it was, so the streak stays 1, which is neither 0 nor 2.  On a keystroke
    in the middle of a word: the g of dog carries the streak of 1 along.
    And [LOAD_STATE] installs the streak of the loaded state, here 2 after
    0. *)
Lemma streak_neither_zero_nor_next :
  (dispatchAll sampleList (with_targetStreak 2 sampleStart) sampleLastKey
   = Ok sampleBeforeFinish
   /\ streak (word sampleBeforeFinish) = 1
   /\ exists st',
        reducer sampleList 3300 sampleBeforeFinish (APPEND_BUFFER (lit " "))
        = Ok st'
        /\ finished st' = true
        /\ streak (word st') = 1
        /\ streak (word st') <> 0
        /\ streak (word st') <> streak (word sampleBeforeFinish) + 1)
  /\ (exists before,
        dispatchAll sampleList (with_targetStreak 2 sampleStart)
          (typing 0 100 (lit "cat ") ++ typing 1000 100 (lit "cat ")
           ++ typing 2000 100 (lit "dog ") ++ typing 3000 100 (lit "do"))
        = Ok before
        /\ streak (word before) = 1
        /\ reducer sampleList 3200 before (APPEND_BUFFER (lit "g"))
           = Ok sampleBeforeFinish
        /\ streak (word sampleBeforeFinish) <> 0
        /\ streak (word sampleBeforeFinish) <> streak (word before) + 1)
  /\ (reducer sampleList 0 sampleStart (LOAD_STATE sampleAwaiting)
      = Ok sampleAwaiting
      /\ streak (word sampleStart) = 0
      /\ streak (word sampleAwaiting) = 2
      /\ streak (word sampleAwaiting) <> 0
      /\ streak (word sampleAwaiting) <> streak (word sampleStart) + 1).
Proof.
  split; [|split].
  - split; [vm_compute; reflexivity|]. split; [reflexivity|].
    eexists. split; [vm_compute; reflexivity|].
    repeat split; discriminate.
  - eexists. split; [vm_compute; reflexivity|].
    split; [reflexivity|]. split; [vm_compute; reflexivity|].
    split; discriminate.
  - repeat split; discriminate.
Qed.

Lemma replay_after_completion_witness :
  exists st',
    reducer sampleList 2000 sampleAwaiting (APPEND_BUFFER (lit "c")) = Ok st'
    /\ buffer st' = lit "c"
    /\ startTime (word st') = Some 2000
    /\ streak (word st') = 2.
Proof.
  destruct (replay_after_completion sampleList 2000 sampleAwaiting (lit "c")
              1300 (of_Z 160))
    as (st' & Hstep & _ & Hstart & _ & _ & _ & _ & Hbuffer & _ & Hstreak).
  - reflexivity.
  - reflexivity.
  - reflexivity.
  - reflexivity.
  - discriminate.
  - reflexivity.
  - intros [_ Hkey]. discriminate Hkey.
  - apply every_character_matches. reflexivity.
  - exists st'. repeat split; assumption.
Defined.

(** C4 fails as stated on a keystroke that is not the first character of
    the word: after the word was completed twice on time, typing x is a
    mismatch, not a replay.  The buffer comes back empty, [startTime] stays
    at 1000, and the streak is 0 although the completed attempt matched at
    160 words per minute against a target of 30. *)
Lemma wrong_key_after_completion :
  showInstructions sampleAwaiting = false
  /\ finished sampleAwaiting = false
  /\ endTime (word sampleAwaiting) = Some 1300
  /\ wpm (word sampleAwaiting) = Some (of_Z 160)
  /\ streak (word sampleAwaiting) < targetStreak sampleAwaiting
  /\ match_ (word sampleAwaiting) = true
  /\ num_ge (of_Z 160) (of_Z (targetWPM sampleAwaiting)) = true
  /\ exists st',
       reducer sampleList 2000 sampleAwaiting (APPEND_BUFFER (lit "x"))
       = Ok st'
       /\ buffer st' = []
       /\ buffer st' <> lit "x"
       /\ startTime (word st') = Some 1000
       /\ streak (word st') = 0
       /\ streak (word st') <> streak (word sampleAwaiting).
Proof.
  repeat split.
  eexists. split; [vm_compute; reflexivity|].
  repeat split; discriminate.
Qed.

Lemma zero_elapsed_hits_witness :
  exists st',
    reducer sampleList 5000 (sampleTyping 0 (lit "cat") (Some 5000) 0 5)
      (APPEND_BUFFER (lit " ")) = Ok st'
    /\ wpm (word st') = Some (Infinity false)
    /\ hitTargetWPM (word st') = true
    /\ streak (word st') = 1.
Proof.
  destruct (zero_elapsed_hits sampleList 5000
              (sampleTyping 0 (lit "cat") (Some 5000) 0 5) (lit " "))
    as (_ & _ & st' & Hstep & Hword).
  - reflexivity.
  - reflexivity.
  - reflexivity.
  - intros [Hempty _]. discriminate Hempty.
  - reflexivity.
  - apply every_character_matches. reflexivity.
  - vm_compute. lia.
  - discriminate.
  - reflexivity.
  - exists st'. split; [exact Hstep|].
    destruct Hword as (Hwpm & Hhit & Hstreak & _); [reflexivity|].
    repeat split; assumption.
Defined.

(** C6 fails as stated on a word whose four keys all arrive at time 5000:
    the elapsed time is 0, [wpm] is [+Infinity], and the attempt is recorded
    as having met the target, with the streak raised to 1. *)
Lemma instant_word_counts_as_hit :
  exists before after,
    dispatchAll sampleList (with_targetStreak 5 sampleStart)
      (typing 5000 0 (lit "cat")) = Ok before
    /\ startTime (word before) = Some 5000
    /\ 5000 - default 0 (startTime (word before)) = 0
    /\ reducer sampleList 5000 before (APPEND_BUFFER (lit " ")) = Ok after
    /\ endTime (word after) = Some 5000
    /\ wpm (word after) = Some (Infinity false)
    /\ hitTargetWPM (word after) = true
    /\ streak (word after) = 1.
Proof.
  do 2 eexists. split; [vm_compute; reflexivity|].
  split; [reflexivity|]. split; [reflexivity|].
  split; [vm_compute; reflexivity|]. repeat split.
Qed.

Lemma level_within_highest_witness :
  exists st',
    reducer sampleList 300 (sampleTyping 0 (lit "cat") (Some 0) 0 1)
      (APPEND_BUFFER (lit " ")) = Ok st'
    /\ exists highest',
         highestLevel st' = Some highest' /\ (level st' <= highest')%nat.
Proof.
  destruct (level_within_highest sampleList 300
              (sampleTyping 0 (lit "cat") (Some 0) 0 1)
              (APPEND_BUFFER (lit " ")) 0)
    as (Hkept & Hreturns).
  - reflexivity.
  - vm_compute. lia.
  - intros payload. discriminate.
  - destruct Hreturns as (st' & Hstep); [vm_compute; lia|].
    exists st'. split; [exact Hstep | exact (Hkept st' Hstep)].
Defined.

(** * Further properties of the reducer *)

(** ** Actions by kind *)

(** Typing and the four navigation shortcuts. *)
Definition typesOrJumps (action : Action) : bool :=
  match action with
  | APPEND_BUFFER _ | JUMP_BACKWARDS | JUMP_END | JUMP_FORWARDS | JUMP_START =>
      true
  | _ => false
  end.

(** The actions that start over: a loaded snapshot, a reset, a new
    wordlist. *)
Definition startsOver (action : Action) : bool :=
  match action with
  | LOAD_STATE _ | RESET_STATE | SET_WORDLIST _ => true
  | _ => false
  end.

(** The wordlist an action hands over, if it is one. *)
Definition suppliedWordlist (action : Action) : option (list jsstring) :=
  match action with
  | SET_WORDLIST payload => Some payload
  | _ => None
  end.

(** [level] and [highestLevel] are indices into the active wordlist. *)
Definition levelsInRange (en1000 : list jsstring) (st : State) : Prop :=
  exists highest,
    highestLevel st = Some highest
    /\ (level st <= highest)%nat
    /\ (highest < length (activeWordlist en1000 st))%nat.

Section Invariants.

Variable en1000 : list jsstring.

(** One case per return statement of the reducer. *)
Ltac each_return Hstep :=
  match type of Hstep with
  | reducer _ _ _ ?action = _ =>
      destruct action; simpl in *; try discriminate;
      [unfold append_buffer in Hstep; cbv zeta in Hstep|..];
      repeat case_match; simplify_eq
  end.

(** X1.  Typing and navigation leave the settings alone: the two targets,
    dark mode, mute, the overlay flag, the custom wordlist and the four
    sound lists come back as they were. *)
Theorem settings_untouched (now : Z) (st st' : State) (action : Action) :
  typesOrJumps action = true ->
  reducer en1000 now st action = Ok st' ->
  targetWPM st' = targetWPM st
  /\ targetStreak st' = targetStreak st
  /\ darkMode st' = darkMode st
  /\ muted st' = muted st
  /\ showInstructions st' = showInstructions st
  /\ customWordlist st' = customWordlist st
  /\ successSounds st' = successSounds st
  /\ errorSounds st' = errorSounds st
  /\ speedErrorSounds st' = speedErrorSounds st
  /\ clickSounds st' = clickSounds st.
Proof.
  intros Hkind Hstep. each_return Hstep; cbn; repeat split; congruence.
Qed.

(** X2.  Progress is not lost: unless the action starts over, a defined
    [highestLevel] stays defined and does not decrease. *)
Theorem highest_never_drops (now : Z) (st st' : State) (action : Action)
    (highest : nat) :
  startsOver action = false ->
  highestLevel st = Some highest ->
  reducer en1000 now st action = Ok st' ->
  exists highest',
    highestLevel st' = Some highest' /\ (highest <= highest')%nat.
Proof.
  intros Hkind Hhigh Hstep. destruct st. cbn in Hhigh. subst.
  each_return Hstep; cbn; eexists; (split; [reflexivity|]); cbn; lia.
Qed.

(** X3.  With a non-empty default wordlist, and no empty wordlist handed
    over, [level <= highestLevel < wordlist.length] is kept by every action
    other than [LOAD_STATE]: the word factory is never asked for an entry
    that is not there. *)
Theorem levels_stay_in_range (now : Z) (st st' : State) (action : Action) :
  en1000 <> [] ->
  suppliedWordlist action <> Some [] ->
  (forall payload, action <> LOAD_STATE payload) ->
  levelsInRange en1000 st ->
  reducer en1000 now st action = Ok st' ->
  levelsInRange en1000 st'
  /\ exists entry, activeWordlist en1000 st' !! level st' = Some entry.
Proof.
  intros Hdefault Hsupplied Hload (highest & Hhigh & Hlevel & Hrange) Hstep.
  assert (Hgoal : levelsInRange en1000 st').
  { unfold levelsInRange in *.
    assert (0 < length en1000)%nat by (destruct en1000; [congruence|simpl; lia]).
    destruct st. unfold activeWordlist in *. cbn in Hhigh, Hlevel, Hrange. subst.
    each_return Hstep; try (exfalso; eapply Hload; reflexivity);
      cbn in *;
      try (eexists; split; [reflexivity|]; cbn;
           repeat match goal with
                  | H : (_ =? _)%nat = false |- _ => apply Nat.eqb_neq in H
                  end; lia).
    - exists 0%nat. unfold defaultLevel. split; [reflexivity | lia].
    - exists 0%nat. split; [reflexivity|].
      match goal with |- context [length ?l] => destruct l end;
        [congruence | simpl; lia]. }
  split; [exact Hgoal|].
  destruct Hgoal as (highest' & _ & Hlevel' & Hrange').
  apply lookup_lt_is_Some_2. lia.
Qed.

(** X4.  A finished session sits on the last index of its wordlist: every
    action other than [LOAD_STATE] keeps
    [finished -> level + 1 = wordlist.length]. *)
Theorem finished_on_last_level (now : Z) (st st' : State) (action : Action) :
  (forall payload, action <> LOAD_STATE payload) ->
  (finished st = true ->
   (level st + 1)%nat = length (activeWordlist en1000 st)) ->
  reducer en1000 now st action = Ok st' ->
  finished st' = true ->
  (level st' + 1)%nat = length (activeWordlist en1000 st').
Proof.
  intros Hload Hinv Hstep.
  each_return Hstep; try (exfalso; eapply Hload; reflexivity);
    cbn in *; try discriminate; try (intros Hfin; apply Hinv; congruence);
    try (intros _; apply Nat.eqb_eq; assumption);
    intros; congruence.
Qed.

End Invariants.

(** ** Marks and matches *)

Lemma lookup_map {A B : Type} (f : A -> B) (l : list A) (i : nat) :
  map f l !! i = f <$> l !! i.
Proof. change (map f l) with (f <$> l). apply list_lookup_fmap. Qed.

Lemma mark_lookup (typed : jsstring) (chars : list Character) (i : nat) :
  mark typed chars !! i
  = (fun c => {| character := character c;
                 correct := match typed !! i with
                            | None => None
                            | Some u => Some (bool_decide (character c = [u]))
                            end |}) <$> chars !! i.
Proof. unfold mark. apply list_lookup_imap. Qed.

Lemma mark_length (typed : jsstring) (chars : list Character) :
  length (mark typed chars) = length chars.
Proof. unfold mark. apply length_imap. Qed.

(** Marking keeps the expected characters. *)
Lemma mark_character (typed : jsstring) (chars : list Character) :
  map character (mark typed chars) = map character chars.
Proof.
  apply list_eq. intros i. rewrite !lookup_map, mark_lookup.
  destruct (chars !! i); reflexivity.
Qed.

(** The marks depend on the expected characters only, not on older marks. *)
Lemma mark_same_characters (typed : jsstring) (chars chars0 : list Character) :
  map character chars = map character chars0 ->
  mark typed chars = mark typed chars0.
Proof.
  intros Hsame. apply list_eq. intros i. rewrite !mark_lookup.
  assert (Hi : map character chars !! i = map character chars0 !! i)
    by (rewrite Hsame; reflexivity).
  rewrite !lookup_map in Hi.
  destruct (chars !! i) as [c|], (chars0 !! i) as [c0|]; simpl in *;
    try discriminate; [|reflexivity].
  injection Hi as ->. reflexivity.
Qed.

Lemma matches_same_characters (typed : jsstring) (chars chars0 : list Character) :
  map character chars = map character chars0 ->
  matches typed chars -> matches typed chars0.
Proof.
  intros Hsame Hm i u Hu. destruct (Hm i u Hu) as (c & Hc & Hcu).
  assert (Hi : map character chars !! i = map character chars0 !! i)
    by (rewrite Hsame; reflexivity).
  rewrite !lookup_map, Hc in Hi.
  destruct (chars0 !! i) as [c0|]; simpl in Hi; [|discriminate].
  exists c0. split; [reflexivity|]. congruence.
Qed.

Lemma matches_nil (chars : list Character) : matches [] chars.
Proof. intros i u Hu. rewrite lookup_nil in Hu. discriminate. Qed.

Lemma mark_mark (typed older : jsstring) (chars : list Character) :
  mark typed (mark older chars) = mark typed chars.
Proof. apply mark_same_characters, mark_character. Qed.


(** X6.  The two halves of the evaluator agree: the [every] test answers
    true exactly when the buffer is no longer than the word and [mark] marks
    every position the buffer covers as correct. *)
Theorem every_agrees_with_mark (typed : jsstring) (chars : list Character) :
  every_character typed chars = Ok true
  <-> (length typed <= length chars)%nat
      /\ forall i, (i < length typed)%nat ->
           correct <$> mark typed chars !! i = Some (Some true).
Proof.
  rewrite every_character_matches. split.
  - intros Hm. split; [apply matches_length; exact Hm|].
    intros i Hi. destruct (lookup_lt_is_Some_2 typed i Hi) as [u Hu].
    destruct (Hm i u Hu) as (c & Hc & Hcu).
    rewrite mark_lookup, Hc, Hu. simpl.
    rewrite bool_decide_eq_true_2 by exact Hcu. reflexivity.
  - intros [Hfit Hmarks] i u Hu.
    pose proof (lookup_lt_Some _ _ _ Hu) as Hi.
    specialize (Hmarks i Hi). rewrite mark_lookup, Hu in Hmarks.
    destruct (chars !! i) as [c|]; simpl in Hmarks; [|discriminate].
    exists c. split; [reflexivity|].
    injection Hmarks as Hdec. apply bool_decide_eq_true in Hdec. exact Hdec.
Qed.

(** ** Words of the factory *)

(** Whatever the index, the word ends in the trailing space. *)
Lemma createWord_characters (list : list jsstring) (index : nat) :
  map character (characters (createWord list index))
  = split (toLowerCase (template (list !! index))) ++ [[32%N]].
Proof.
  unfold createWord. cbn [characters]. rewrite toLowerCase_space.
  unfold split. rewrite !map_map, map_app. reflexivity.
Qed.

Lemma createWord_nonempty (list : list jsstring) (index : nat) :
  (0 < length (characters (createWord list index)))%nat.
Proof.
  rewrite <- (length_map character), createWord_characters, length_app.
  simpl. lia.
Qed.

(** A word of the factory that starts with something other than a space has
    a second character. *)
Lemma createWord_second (list : list jsstring) (index : nat) (u : N) :
  u <> 32%N ->
  map character (characters (createWord list index)) !! 0%nat = Some [u] ->
  (1 < length (characters (createWord list index)))%nat.
Proof.
  intros Hu Hfirst. rewrite <- (length_map character).
  rewrite createWord_characters in *. rewrite length_app. simpl.
  destruct (split (toLowerCase (template (list !! index)))); simpl in *;
    [congruence | lia].
Qed.

(** ** Well-formed sessions *)

(** The word the factory makes for the level the state is on. *)
Definition levelWord (en1000 : list jsstring) (st : State) : Word :=
  createWord (activeWordlist en1000 st) (level st).

(** What the reducer keeps true of the states of a session: the word spells
    the wordlist entry of the level; the buffer is shorter than the word and
    matches it; a word that has an [endTime] has an empty buffer; and a
    non-empty buffer is what the word is marked with. *)
Definition wellFormed (en1000 : list jsstring) (st : State) : Prop :=
  map character (characters (word st))
  = map character (characters (levelWord en1000 st))
  /\ (length (buffer st) < length (characters (word st)))%nat
  /\ matches (buffer st) (characters (word st))
  /\ (endTime (word st) <> None -> buffer st = [])
  /\ (buffer st <> [] ->
      characters (word st)
      = mark (buffer st) (characters (levelWord en1000 st))).

(** The actions of a session: keystrokes arrive one code unit at a time, a
    loaded snapshot is a well-formed state, and the word is not replaced
    from outside. *)
Definition admissible (en1000 : list jsstring) (action : Action) : Prop :=
  match action with
  | APPEND_BUFFER payload => length payload = 1%nat
  | LOAD_STATE payload => wellFormed en1000 payload
  | SET_WORD _ | SET_CHARACTERS _ => False
  | _ => True
  end.

Section WellFormed.

Variable en1000 : list jsstring.

Lemma wellFormed_fresh (st : State) :
  word st = levelWord en1000 st ->
  buffer st = [] ->
  wellFormed en1000 st.
Proof.
  intros Hword Hbuffer. unfold wellFormed. rewrite Hbuffer, Hword.
  repeat split.
  - apply createWord_nonempty.
  - apply matches_nil.
  - congruence.
Qed.

Lemma wellFormed_frame (st st' : State) :
  word st' = word st ->
  level st' = level st ->
  buffer st' = buffer st ->
  customWordlist st' = customWordlist st ->
  wellFormed en1000 st -> wellFormed en1000 st'.
Proof.
  unfold wellFormed, levelWord, activeWordlist.
  intros -> -> -> ->. exact id.
Qed.

(** The buffer emptied and the word marked: a mismatch, or a completion. *)
Lemma wellFormed_emptied (st st' : State) (typed : jsstring) :
  characters (word st') = mark typed (characters (word st)) ->
  level st' = level st ->
  buffer st' = [] ->
  customWordlist st' = customWordlist st ->
  wellFormed en1000 st -> wellFormed en1000 st'.
Proof.
  unfold wellFormed, levelWord, activeWordlist.
  intros -> -> -> -> (Hspell & Hshort & _).
  rewrite mark_character, mark_length. repeat split.
  - exact Hspell.
  - simpl. lia.
  - apply matches_nil.
  - congruence.
Qed.

(** One more matching character in the buffer. *)
Lemma wellFormed_progress (st st' : State) (typed : jsstring) :
  characters (word st') = mark typed (characters (word st)) ->
  endTime (word st') = None ->
  level st' = level st ->
  buffer st' = typed ->
  customWordlist st' = customWordlist st ->
  matches typed (characters (word st)) ->
  (length typed < length (characters (word st)))%nat ->
  map character (characters (word st))
  = map character (characters (levelWord en1000 st)) ->
  wellFormed en1000 st'.
Proof.
  unfold wellFormed, levelWord, activeWordlist.
  intros -> Hend -> -> -> Hmatch Hshort Hspell.
  rewrite mark_character, mark_length. repeat split.
  - exact Hspell.
  - exact Hshort.
  - apply (matches_same_characters typed (characters (word st)));
      [symmetry; apply mark_character | exact Hmatch].
  - congruence.
  - intros _. apply mark_same_characters. exact Hspell.
Qed.

(** The replay of a word whose first character was just typed. *)
Lemma wellFormed_replay (now : Z) (st : State) (u : N) (carried : Z) :
  u <> 32%N ->
  matches [u] (characters (word st)) ->
  wellFormed en1000 st ->
  wellFormed en1000
    (with_buffer [u]
       (with_word (replayWord now (levelWord en1000 st) [u] carried) st)).
Proof.
  intros Hu Hmatch (Hspell & _).
  destruct (Hmatch 0%nat u eq_refl) as (c & Hc & Hcu).
  assert (Hfirst : map character (characters (levelWord en1000 st)) !! 0%nat
                   = Some [u]).
  { rewrite <- Hspell, lookup_map, Hc. simpl. congruence. }
  pose proof (createWord_second _ _ u Hu Hfirst) as Hsecond.
  apply (wellFormed_progress
           (with_word (levelWord en1000 st) st) _ [u]);
    try reflexivity.
  - intros i v Hv. destruct i as [|i]; simpl in Hv; [|rewrite lookup_nil in Hv; discriminate].
    injection Hv as <-. rewrite lookup_map in Hfirst.
    change (characters (word (with_word (levelWord en1000 st) st)))
      with (characters (levelWord en1000 st)).
    destruct (characters (levelWord en1000 st) !! 0%nat) as [c0|];
      simpl in Hfirst; [|discriminate].
    exists c0. split; [reflexivity|]. congruence.
  - exact Hsecond.
Qed.

(** A keystroke on a well-formed state never reads past the word. *)
Lemma append_buffer_wellFormed (now : Z) (st : State) (u : N) :
  wellFormed en1000 st ->
  exists st',
    append_buffer en1000 now st [u] = Ok st' /\ wellFormed en1000 st'.
Proof.
  intros Hwf. pose proof Hwf as (Hspell & Hshort & Hprefix & Hended & Hmarks).
  unfold append_buffer.
  destruct (showInstructions st); [eauto|].
  destruct (finished st); [eauto|].
  destruct ((length (buffer st) =? 0)%nat && bool_decide ([u] = lit " "))
    eqn:Hspace; [eauto|].
  destruct (streak (word st) >=? targetStreak st); [eauto|].
  cbv zeta.
  destruct (every_from_fits (buffer st ++ [u]) (characters (word st)) 0)
    as [matched Hevery]; [rewrite length_app; simpl; lia|].
  fold (every_character (buffer st ++ [u]) (characters (word st))) in Hevery.
  rewrite Hevery. destruct matched; cbn [negb].
  2: { eexists. split; [reflexivity|].
       eapply wellFormed_emptied; [reflexivity..|exact Hwf]. }
  apply every_character_matches in Hevery.
  pose proof (matches_length _ _ Hevery) as Hfits.
  destruct (endTime (word st)) as [finish|] eqn:Hend; cbn [undefined andb].
  - assert (Hbuffer : buffer st = []) by (apply Hended; congruence).
    rewrite Hbuffer in *. simpl in Hspace.
    apply bool_decide_eq_false in Hspace.
    assert (Hu : u <> 32%N) by (intros ->; apply Hspace; reflexivity).
    simpl app.
    destruct (wpm (word st)); [|eauto].
    destruct (negb (match_ (word st)) || num_lt n (of_Z (targetWPM st)));
      [|destruct (streak (word st) <? targetStreak st); [|eauto]];
      (eexists; split; [reflexivity|]);
      apply wellFormed_replay; assumption.
  - destruct (Nat.leb_spec (length (characters (word st)))
                (length (buffer st ++ [u]))) as [Hfull|Hpart].
    + destruct ((if num_ge _ _ then _ else _) >=? targetStreak st).
      * destruct (level st + 1 =? length (activeWordlist en1000 st))%nat.
        -- eexists. split; [reflexivity|].
           eapply wellFormed_frame; [reflexivity..|exact Hwf].
        -- eexists. split; [reflexivity|].
           apply wellFormed_fresh; reflexivity.
      * eexists. split; [reflexivity|].
        eapply wellFormed_emptied; [reflexivity..|exact Hwf].
    + apply Nat.ltb_lt in Hpart. rewrite Hpart. apply Nat.ltb_lt in Hpart.
      eexists. split; [reflexivity|].
      eapply wellFormed_progress;
        [reflexivity.. | exact Hevery | exact Hpart | exact Hspell].
Qed.

Lemma wellFormed_step (now : Z) (st : State) (action : Action) :
  wellFormed en1000 st ->
  admissible en1000 action ->
  exists st',
    reducer en1000 now st action = Ok st' /\ wellFormed en1000 st'.
Proof.
  intros Hwf Hadm.
  destruct action as [payload| | | | |loaded| | |chars|goal|goal|w|list| | | ];
    simpl in Hadm; try contradiction; simpl.
  - destruct payload as [|u [|v rest]]; try discriminate.
    apply append_buffer_wellFormed. exact Hwf.
  - destruct (showInstructions st), (highestLevel st); eauto;
      (eexists; split; [reflexivity|]); apply wellFormed_fresh; reflexivity.
  - destruct (showInstructions st), (highestLevel st); eauto;
      (eexists; split; [reflexivity|]); apply wellFormed_fresh; reflexivity.
  - destruct (showInstructions st), (highestLevel st); eauto;
      (eexists; split; [reflexivity|]); apply wellFormed_fresh; reflexivity.
  - destruct (showInstructions st); eauto.
    eexists. split; [reflexivity|]. apply wellFormed_fresh; reflexivity.
  - eauto.
  - eexists. split; [reflexivity|]. apply wellFormed_fresh; reflexivity.
  - eexists. split; [reflexivity|].
    eapply wellFormed_frame; [reflexivity..|exact Hwf].
  - eexists. split; [reflexivity|].
    eapply wellFormed_frame; [reflexivity..|exact Hwf].
  - eexists. split; [reflexivity|].
    eapply wellFormed_frame; [reflexivity..|exact Hwf].
  - eexists. split; [reflexivity|]. apply wellFormed_fresh; reflexivity.
  - eexists. split; [reflexivity|].
    eapply wellFormed_frame; [reflexivity..|exact Hwf].
  - eexists. split; [reflexivity|].
    eapply wellFormed_frame; [reflexivity..|exact Hwf].
  - eexists. split; [reflexivity|].
    eapply wellFormed_frame; [reflexivity..|exact Hwf].
Qed.

(** X7.  A well-formed state answers every admissible action with a
    well-formed state: in particular the evaluator never reads a character
    past the end of the word, so the reducer does not throw. *)
Theorem reducer_keeps_wellFormed (now : Z) (st : State) (action : Action) :
  wellFormed en1000 st ->
  admissible en1000 action ->
  exists st',
    reducer en1000 now st action = Ok st' /\ wellFormed en1000 st'.
Proof. apply wellFormed_step. Qed.

(** X8.  A session never throws: from the initial state, any sequence of
    admissible actions, at any clock readings, runs to a state, and that
    state is well-formed (its buffer is a matching, strictly shorter prefix
    of a word that spells the wordlist entry of its level). *)
Theorem session_never_throws (events : list (Z * Action)) :
  Forall (fun event => admissible en1000 (snd event)) events ->
  exists st',
    dispatchAll en1000 (initialState en1000) events = Ok st'
    /\ wellFormed en1000 st'.
Proof.
  assert (Hrun : forall st,
             wellFormed en1000 st ->
             Forall (fun event => admissible en1000 (snd event)) events ->
             exists st',
               dispatchAll en1000 st events = Ok st' /\ wellFormed en1000 st').
  { induction events as [|[now action] rest IH]; intros st Hwf Hall; simpl.
    - eauto.
    - inversion Hall as [|? ? Hadm Hrest]; subst.
      destruct (wellFormed_step now st action Hwf Hadm)
        as (next & -> & Hnext).
      apply IH; assumption. }
  apply Hrun. apply wellFormed_fresh; reflexivity.
Qed.

End WellFormed.

(** ** Words per minute, rounded *)

(** A rounded quotient [k / elapsed] is at least the target exactly when
    [elapsed * (2 * target - 1) <= k]. *)
Lemma on_target_iff (k elapsed target : Z) :
  0 < elapsed ->
  num_ge (of_Z ((k + elapsed) / (2 * elapsed))) (of_Z target) = true
  <-> elapsed * (2 * target - 1) <= k.
Proof.
  intros Hpos. unfold num_ge, of_Z. rewrite Qle_bool_iff, <- Zle_Qle.
  split; intros H.
  - assert (2 * elapsed * target <= k + elapsed); [|lia].
    etransitivity; [apply Z.mul_le_mono_nonneg_l; [lia | exact H]|].
    apply Z.mul_div_le. lia.
  - apply Z.div_le_lower_bound; lia.
Qed.

(** X9.  When the clock did not run backwards, the words per minute are a
    whole number that is not negative, [+Infinity] (no time elapsed) or NaN
    (no characters in no time). *)
Theorem wpm_whole (now : Z) (start : option Z) (n : nat) :
  0 <= now - default 0 start ->
  wpm_of now start n = NaN
  \/ wpm_of now start n = Infinity false
  \/ exists w, wpm_of now start n = of_Z w /\ 0 <= w.
Proof.
  intros Hpos. unfold wpm_of. cbv zeta.
  assert (Hwhole : forall v, (0 <= v)%Q ->
            exists w, Math_round (Finite v) = of_Z w /\ 0 <= w).
  { intros v Hv. eexists. split; [reflexivity|].
    change 0 with (Qfloor 0). apply Qfloor_resp_le.
    apply Qle_trans with v; [exact Hv|].
    rewrite <- (Qplus_0_r v) at 1. apply Qplus_le_r. discriminate. }
  assert (Hminutes : float_div (of_Z (now - default 0 start)) (of_Z 60000)
                     = Infinity false
                     \/ exists y, float_div (of_Z (now - default 0 start))
                                    (of_Z 60000) = Finite y /\ (0 <= y)%Q).
  { unfold float_div, of_Z, num_div.
    change (Qeq_bool (inject_Z 60000) 0) with false. cbv iota.
    apply round64_nonneg. apply Qle_shift_div_l; [reflexivity|].
    rewrite Qmult_0_l, <- (Zle_Qle 0). exact Hpos. }
  destruct Hminutes as [->|(y & -> & Hy)];
    destruct (fifth_nonneg n) as [->|(x & -> & Hx)].
  - left. reflexivity.
  - right. right. change (float_div (Finite x) (Infinity false)) with (Finite 0).
    apply Hwhole. apply Qle_refl.
  - right. left. unfold float_div, num_div.
    rewrite (Qnegative_nonneg _ Hy). reflexivity.
  - unfold float_div, num_div.
    destruct (Qeq_bool y 0) eqn:Hzero.
    { destruct (Qeq_bool x 0); [left; reflexivity|].
      right. left. rewrite (Qnegative_nonneg _ Hx). reflexivity. }
    apply Qeq_bool_neq in Hzero.
    assert (Hquot : (0 <= x / y)%Q).
    { apply Qle_shift_div_l; [|rewrite Qmult_0_l; exact Hx].
      apply Qle_lteq in Hy. destruct Hy as [Hlt|Heq]; [exact Hlt|].
      exfalso. apply Hzero. symmetry. exact Heq. }
    destruct (round64_nonneg _ Hquot) as [->|(v & -> & Hv)];
      [right; left; reflexivity | right; right; apply Hwhole; exact Hv].
Qed.

(** X10.  A clock that ran backwards never meets a positive target, and
    neither does an empty buffer completed in no time: with negative elapsed
    time the words per minute are below 1, and for no characters in no time
    they are NaN. *)
Theorem wpm_without_time (now : Z) (start : option Z) (n : nat) (target : Z) :
  0 < target ->
  (now - default 0 start < 0
   \/ (now - default 0 start = 0 /\ n = 0%nat)) ->
  num_ge (wpm_of now start n) (of_Z target) = false.
Proof.
  intros Htarget Hcase.
  destruct Hcase as [Hneg|[Hzero ->]].
  - apply wpm_of_backwards; assumption.
  - unfold wpm_of. rewrite Hzero. reflexivity.
Qed.

(** X25.  Binary64 decides which way a half goes.  Seven characters in
    960 ms are 87.5 words per minute; the double quotient is just below,
    so the reducer stores 87 and a target of 88 is missed, where the exact
    quotient rounds to 88.  Likewise three characters in 24 s give 1, not
    2. *)
Theorem half_falls_short :
  wpm_of 960 (Some 0) 7 = of_Z 87
  /\ num_ge (wpm_of 960 (Some 0) 7) (of_Z 88) = false
  /\ Math_round (num_div (num_div (of_Z 7) (of_Z 5))
                   (num_div (of_Z 960) (of_Z 60000))) = of_Z 88
  /\ wpm_of 24000 (Some 0) 3 = of_Z 1
  /\ Math_round (num_div (num_div (of_Z 3) (of_Z 5))
                   (num_div (of_Z 24000) (of_Z 60000))) = of_Z 2.
Proof. repeat split; vm_compute; reflexivity. Qed.

(** ** Sound requests *)

(** More arithmetic on numbers, for [100 + 100 * (1 - targetStreak / streak)].
    The sum of opposite infinities and the product of zero and an infinity
    are NaN. *)
Definition num_neg (x : number) : number :=
  match x with
  | Finite q => Finite (- q)
  | Infinity s => Infinity (negb s)
  | NaN => NaN
  end.

Definition num_add (x y : number) : number :=
  match x, y with
  | NaN, _ | _, NaN => NaN
  | Finite p, Finite q => Finite (p + q)
  | Finite _, Infinity s | Infinity s, Finite _ => Infinity s
  | Infinity a, Infinity b => if Bool.eqb a b then Infinity a else NaN
  end.

Definition num_sub (x y : number) : number := num_add x (num_neg y).

Definition num_mul (x y : number) : number :=
  match x, y with
  | NaN, _ | _, NaN => NaN
  | Finite p, Finite q => Finite (p * q)
  | Finite p, Infinity s | Infinity s, Finite p =>
      if Qeq_bool p 0 then NaN else Infinity (xorb s (Qnegative p))
  | Infinity a, Infinity b => Infinity (xorb a b)
  end.

(** What [playSound] is asked for: the name, [undefined] when the sound list
    is empty, and the detune. *)
Record SoundRequest : Type := mkSoundRequest {
  sound : option jsstring;
  detune : number;
}.

(** [playSound(name, parameters)]: nothing while muted; otherwise the sound
    is played, at once or as soon as it is loaded. *)
Definition playSound (state : State) (name : option jsstring)
    (parameters : number) : list SoundRequest :=
  if muted state then []
  else [{| sound := name; detune := parameters |}].

(** The default [{detune: 100}]. *)
Definition defaultDetune : number := of_Z 100.

(** The pitch of the success sound, higher the closer the streak is to the
    target. *)
Definition detune_of (targetStreak streak : Z) : number :=
  num_add (of_Z 100)
    (num_mul (of_Z 100)
       (num_sub (of_Z 1) (num_div (of_Z targetStreak) (of_Z streak)))).

(** [characters[index]?.correct], for an index that may be negative. *)
Definition correctAt (chars : list Character) (index : Z) : option bool :=
  if index <? 0 then None
  else
    match chars !! Z.to_nat index with
    | Some c => correct c
    | None => None
    end.

(** The calls of [playSound] the reducer makes on [APPEND_BUFFER], in
    order. *)
Definition append_buffer_sounds (now : Z) (state : State) (payload : jsstring)
    : list SoundRequest :=
  if showInstructions state then []
  else if finished state then []
  else if (length (buffer state) =? 0)%nat
          && bool_decide (payload = lit " ") then []
  else if streak (word state) >=? targetStreak state then []
  else
    let appendBuffer := buffer state ++ payload in
    match every_character appendBuffer (characters (word state)) with
    | TypeError => []
    | Ok matched =>
      let wpm_ := wpm_of now (startTime (word state)) (length appendBuffer) in
      let hit := num_ge wpm_ (of_Z (targetWPM state)) in
      if negb matched then
        if bool_decide (correctAt (characters (word state))
                          (Z.of_nat (length appendBuffer) - 1) = Some false)
           && (1 <? length appendBuffer)%nat
           && bool_decide (correctAt (characters (word state))
                             (Z.of_nat (length appendBuffer) - 2) = Some true)
        then playSound state (errorSounds state !! 0%nat) defaultDetune
        else []
      else
        playSound state (clickSounds state !! 0%nat) defaultDetune
        ++ (if undefined (endTime (word state))
               && (length (characters (word state))
                   <=? length appendBuffer)%nat then
              let streak_ := if hit then streak (word state) + 1 else 0 in
              if hit then
                playSound state (successSounds state !! 0%nat)
                  (detune_of (targetStreak state) streak_)
              else
                playSound state (speedErrorSounds state !! 0%nat) defaultDetune
            else [])
    end.

(** Only [APPEND_BUFFER] calls [playSound]. *)
Definition requested (now : Z) (state : State) (action : Action)
    : list SoundRequest :=
  match action with
  | APPEND_BUFFER payload => append_buffer_sounds now state payload
  | _ => []
  end.

(** X11.  No sound is requested while muted, while the overlay is shown,
    once the session is finished, or by an action that leaves the state as
    it is on the guards of [APPEND_BUFFER] (a leading space, a streak
    already at the target); and no action other than [APPEND_BUFFER]
    requests one, in any state. *)
Theorem silent_when (now : Z) (st : State) (action : Action) :
  muted st = true
  \/ showInstructions st = true
  \/ finished st = true
  \/ streak (word st) >= targetStreak st
  \/ (buffer st = [] /\ action = APPEND_BUFFER (lit " "))
  \/ (forall payload, action <> APPEND_BUFFER payload) ->
  requested now st action = [].
Proof.
  intros Hcase. destruct action; try reflexivity.
  unfold requested, append_buffer_sounds, playSound.
  destruct Hcase as [H|[H|[H|[H|[[Hb H]|H]]]]].
  - rewrite H. repeat case_match; reflexivity.
  - rewrite H. reflexivity.
  - rewrite H. destruct (showInstructions st); reflexivity.
  - apply Z.ge_le, Z.geb_le in H. rewrite H.
    repeat case_match; reflexivity.
  - injection H as ->. rewrite Hb. simpl.
    repeat case_match; reflexivity.
  - exfalso. exact (H _ eq_refl).
Qed.

Section SoundsOfASession.

Variable en1000 : list jsstring.

(** X12.  In a well-formed state a wrong key is silent: the test for the
    error sound looks at the marks of the word before the keystroke, where
    the position being typed is not marked yet, so a single-character
    [APPEND_BUFFER] that does not match requests no sound at all; and one
    that matches requests the click sound first. *)
Theorem wrong_key_is_silent (now : Z) (st : State) (u : N) :
  wellFormed en1000 st ->
  requested now st (APPEND_BUFFER [u]) = []
  \/ (matches (buffer st ++ [u]) (characters (word st))
      /\ muted st = false
      /\ exists rest,
           requested now st (APPEND_BUFFER [u])
           = {| sound := clickSounds st !! 0%nat; detune := of_Z 100 |} :: rest).
Proof.
  intros (Hspell & Hshort & Hprefix & Hended & Hmarks).
  unfold requested, append_buffer_sounds.
  destruct (showInstructions st); [left; reflexivity|].
  destruct (finished st); [left; reflexivity|].
  destruct ((length (buffer st) =? 0)%nat && bool_decide ([u] = lit " "));
    [left; reflexivity|].
  destruct (streak (word st) >=? targetStreak st); [left; reflexivity|].
  cbv zeta.
  destruct (every_character (buffer st ++ [u]) (characters (word st)))
    as [[|]|] eqn:Hevery; cbn [negb]; [| |left; reflexivity].
  - unfold playSound.
    destruct (muted st); [left; simpl; repeat case_match; reflexivity|].
    right. split; [apply every_character_matches; exact Hevery|].
    split; [reflexivity|]. simpl. eauto.
  - left.
    destruct (buffer st) as [|b rest] eqn:Hbuffer.
    { change (1 <? length ([] ++ [u]))%nat with false.
      rewrite andb_false_r. reflexivity. }
    rewrite Hmarks by discriminate.
    replace (correctAt _ (Z.of_nat (length ((b :: rest) ++ [u])) - 1))
      with (@None bool); [reflexivity|].
    unfold correctAt. rewrite length_app. simpl length.
    destruct (Z.ltb_spec (Z.of_nat (S (length rest) + 1) - 1) 0); [lia|].
    replace (Z.to_nat (Z.of_nat (S (length rest) + 1) - 1))
      with (length (b :: rest)) by (simpl; lia).
    rewrite mark_lookup.
    rewrite (lookup_ge_None_2 (b :: rest)) by lia.
    destruct (characters (levelWord en1000 st) !! length (b :: rest));
      reflexivity.
Qed.

End SoundsOfASession.


(** ** Typing a word, key by key *)

(** The keystrokes of a text: each key with the clock reading it is
    dispatched at. *)
Definition keystrokes (keys : list (Z * N)) : list (Z * Action) :=
  map (fun key => (fst key, APPEND_BUFFER [snd key])) keys.

(** The state while a word is being typed: [typed] in the buffer and marked
    on the word, the clock started at [first] unless it was running. *)
Definition typedSoFar (first : Z) (st : State) (typed : jsstring) : State :=
  with_word
    {| characters := mark typed (characters (word st));
       startTime := Some (default first (startTime (word st)));
       endTime := endTime (word st);
       wpm := wpm (word st);
       hitTargetWPM := hitTargetWPM (word st);
       match_ := match_ (word st);
       streak := streak (word st) |}
    (with_buffer typed st).

Lemma dispatchAll_app (en1000 : list jsstring) (events later : list (Z * Action)) :
  forall st,
    dispatchAll en1000 st (events ++ later)
    = match dispatchAll en1000 st events with
      | Ok st' => dispatchAll en1000 st' later
      | TypeError => TypeError
      end.
Proof.
  induction events as [|[now action] rest IH]; intros st; simpl;
    [reflexivity|].
  destruct (reducer en1000 now st action); [apply IH | reflexivity].
Qed.

Section KeyByKey.

Variable en1000 : list jsstring.

(** The state is waiting for keys of its word. *)
Definition accepting (st : State) : Prop :=
  showInstructions st = false
  /\ finished st = false
  /\ streak (word st) < targetStreak st
  /\ endTime (word st) = None.

Lemma one_more_key (now : Z) (st : State) (u : N) :
  accepting st ->
  ~ (buffer st = [] /\ u = 32%N) ->
  matches (buffer st ++ [u]) (characters (word st)) ->
  (length (buffer st ++ [u]) < length (characters (word st)))%nat ->
  reducer en1000 now st (APPEND_BUFFER [u])
  = Ok (typedSoFar now st (buffer st ++ [u])).
Proof.
  intros (Hshow & Hfin & Hstreak & Hend) Hspace Hmatch Hshort.
  unfold reducer, append_buffer.
  rewrite Hshow, Hfin, (streak_guard _ Hstreak), leading_space_guard
    by (intros [Hb Hu]; change (lit " ") with [32%N] in Hu;
        apply Hspace; split; [exact Hb | congruence]).
  apply every_character_matches in Hmatch. rewrite Hmatch.
  cbv zeta. cbn [negb]. rewrite Hend. cbn [undefined andb].
  pose proof Hshort as Hshort'.
  apply Nat.ltb_lt in Hshort. rewrite Hshort.
  replace (length (characters (word st)) <=? length (buffer st ++ [u]))%nat
    with false by (symmetry; apply Nat.leb_gt; exact Hshort').
  unfold typedSoFar. rewrite Hend. reflexivity.
Qed.

Lemma typedSoFar_again (first next : Z) (st : State) (typed more : jsstring) :
  typedSoFar next (typedSoFar first st typed) more = typedSoFar first st more.
Proof.
  unfold typedSoFar at 1.
  change (characters (word (typedSoFar first st typed)))
    with (mark typed (characters (word st))).
  rewrite mark_mark. reflexivity.
Qed.

Lemma typing_run (keys : list (Z * N)) :
  forall (first : Z) (u : N) (st : State),
    accepting st ->
    ~ (buffer st = [] /\ u = 32%N) ->
    matches (buffer st ++ u :: map snd keys) (characters (word st)) ->
    (length (buffer st ++ u :: map snd keys)
     < length (characters (word st)))%nat ->
    dispatchAll en1000 st (keystrokes ((first, u) :: keys))
    = Ok (typedSoFar first st (buffer st ++ u :: map snd keys)).
Proof.
  induction keys as [|[next v] rest IH]; intros first u st Hacc Hspace Hmatch Hshort.
  - change (dispatchAll en1000 st (keystrokes [(first, u)]))
      with (match reducer en1000 first st (APPEND_BUFFER [u]) with
            | Ok next => Ok next
            | TypeError => TypeError
            end).
    rewrite (one_more_key first st u Hacc Hspace Hmatch Hshort).
    reflexivity.
  - assert (Hmatch1 : matches (buffer st ++ [u]) (characters (word st))).
    { intros i w Hw. apply Hmatch.
      apply lookup_lt_Some in Hw as Hi.
      rewrite lookup_app in Hw |- *.
      destruct (buffer st !! i); [exact Hw|].
      destruct (i - length (buffer st))%nat as [|j]; [exact Hw|].
      simpl in Hw. rewrite lookup_nil in Hw. discriminate. }
    assert (Hshort1 : (length (buffer st ++ [u])
                       < length (characters (word st)))%nat).
    { rewrite length_app in *. simpl in *. lia. }
    change (keystrokes ((first, u) :: (next, v) :: rest))
      with ((first, APPEND_BUFFER [u]) :: keystrokes ((next, v) :: rest)).
    cbn [dispatchAll].
    rewrite (one_more_key first st u Hacc Hspace Hmatch1 Hshort1).
    destruct Hacc as (Hshow & Hfin & Hstreak & Hend).
    rewrite IH.
    + change (buffer (typedSoFar first st (buffer st ++ [u])))
        with (buffer st ++ [u]).
      rewrite typedSoFar_again, <- app_assoc. reflexivity.
    + repeat split; assumption.
    + intros [Hempty _]. cbn in Hempty.
      destruct (buffer st); discriminate.
    + cbn. rewrite <- app_assoc.
      apply (matches_same_characters _ (characters (word st)));
        [symmetry; apply mark_character | exact Hmatch].
    + cbn. rewrite <- app_assoc, mark_length. exact Hshort.
Qed.

(** X14.  Correct keys add up: while the keys typed so far match the word
    and do not complete it, the session holds exactly those keys in its
    buffer and as the marks of the word, with the clock started at the first
    key (unless it was already running) and everything else as it was. *)
Theorem typing_accumulates (keys : list (Z * N)) (first : Z) (u : N)
    (st : State) :
  accepting st ->
  ~ (buffer st = [] /\ u = 32%N) ->
  matches (buffer st ++ u :: map snd keys) (characters (word st)) ->
  (length (buffer st ++ u :: map snd keys)
   < length (characters (word st)))%nat ->
  dispatchAll en1000 st (keystrokes ((first, u) :: keys))
  = Ok (typedSoFar first st (buffer st ++ u :: map snd keys)).
Proof. apply typing_run. Qed.

(** X15.  A whole word, scored: when the keys match the word to its end,
    with the first key at [first] and the last at [now], and the streak
    this earns stays below the target, the session ends up with an empty
    buffer, the word marked correct throughout, [endTime] at the last key,
    [wpm] and [lastWPM] at the words per minute of the whole word, counted
    from the word's [startTime] or else from the first key, [hitTargetWPM]
    telling whether that is at least [targetWPM], and the streak raised by
    1 if it is and set to 0 otherwise. *)
Theorem word_scored (keys : list (Z * N)) (first now : Z) (u v : N)
    (st : State) :
  accepting st ->
  ~ (buffer st = [] /\ u = 32%N) ->
  let typed := buffer st ++ u :: map snd keys ++ [v] in
  let speed :=
    wpm_of now (Some (default first (startTime (word st)))) (length typed) in
  let onTime := num_ge speed (of_Z (targetWPM st)) in
  let gained := if onTime then streak (word st) + 1 else 0 in
  matches typed (characters (word st)) ->
  length typed = length (characters (word st)) ->
  gained < targetStreak st ->
  exists st',
    dispatchAll en1000 st (keystrokes ((first, u) :: keys ++ [(now, v)]))
    = Ok st'
    /\ buffer st' = []
    /\ Forall (fun c => correct c = Some true) (characters (word st'))
    /\ map character (characters (word st'))
       = map character (characters (word st))
    /\ startTime (word st') = Some (default first (startTime (word st)))
    /\ endTime (word st') = Some now
    /\ wpm (word st') = Some speed
    /\ lastWPM st' = Some speed
    /\ hitTargetWPM (word st') = onTime
    /\ match_ (word st') = true
    /\ streak (word st') = gained
    /\ level st' = level st.
Proof.
  intros Hacc Hspace typed speed onTime gained Hmatch Hfull Hgained.
  pose proof Hacc as (Hshow & Hfin & Hstreak & Hend).
  assert (Htyped : typed = (buffer st ++ u :: map snd keys) ++ [v]).
  { subst typed. rewrite <- app_assoc. reflexivity. }
  assert (Hprefix : matches (buffer st ++ u :: map snd keys)
                      (characters (word st))).
  { intros i w Hw. apply Hmatch. rewrite Htyped.
    rewrite lookup_app_l by (eapply lookup_lt_Some; exact Hw). exact Hw. }
  assert (Hshort : (length (buffer st ++ u :: map snd keys)
                    < length (characters (word st)))%nat).
  { rewrite <- Hfull, Htyped, (length_app _ [v]). simpl. lia. }
  change (keystrokes ((first, u) :: keys ++ [(now, v)]))
    with ((first, APPEND_BUFFER [u]) :: keystrokes (keys ++ [(now, v)])).
  unfold keystrokes at 1. rewrite map_app.
  change ((first, APPEND_BUFFER [u]) :: map _ keys ++ map _ [(now, v)])
    with (keystrokes ((first, u) :: keys) ++ [(now, APPEND_BUFFER [v])]).
  rewrite dispatchAll_app, typing_run by assumption.
  cbn [dispatchAll].
  set (before := typedSoFar first st (buffer st ++ u :: map snd keys)).
  unfold reducer, append_buffer.
  change (showInstructions before) with (showInstructions st).
  change (finished before) with (finished st).
  change (buffer before) with (buffer st ++ u :: map snd keys).
  change (streak (word before)) with (streak (word st)).
  change (targetStreak before) with (targetStreak st).
  change (targetWPM before) with (targetWPM st).
  change (endTime (word before)) with (endTime (word st)).
  change (startTime (word before))
    with (Some (default first (startTime (word st)))).
  change (characters (word before))
    with (mark (buffer st ++ u :: map snd keys) (characters (word st))).
  rewrite Hshow, Hfin, (streak_guard _ Hstreak).
  replace (length (buffer st ++ u :: map snd keys) =? 0)%nat with false
    by (rewrite length_app; simpl; symmetry; apply Nat.eqb_neq; lia).
  cbn [andb]. rewrite <- Htyped.
  assert (Hevery : every_character typed
                     (mark (buffer st ++ u :: map snd keys)
                        (characters (word st))) = Ok true).
  { apply every_character_matches.
    apply (matches_same_characters _ (characters (word st)));
      [symmetry; apply mark_character | exact Hmatch]. }
  rewrite Hevery. cbv zeta. cbn [negb]. rewrite Hend. cbn [undefined andb].
  rewrite mark_length.
  replace (length (characters (word st)) <=? length typed)%nat with true
    by (symmetry; apply Nat.leb_le; lia).
  fold speed. fold onTime. fold gained.
  replace (gained >=? targetStreak st) with false
    by (symmetry; rewrite Z.geb_leb; apply Z.leb_gt; exact Hgained).
  eexists. split; [reflexivity|]. cbn.
  rewrite mark_mark.
  repeat split.
  - apply Forall_lookup_2. intros i c Hc. rewrite mark_lookup in Hc.
    destruct (characters (word st) !! i) as [c0|] eqn:Hc0;
      simpl in Hc; [|discriminate].
    injection Hc as <-. simpl.
    assert (Hi : (i < length typed)%nat)
      by (rewrite Hfull; eapply lookup_lt_Some; exact Hc0).
    destruct (lookup_lt_is_Some_2 typed i Hi) as [w Hw]. rewrite Hw.
    destruct (Hmatch i w Hw) as (c1 & Hc1 & Hcw).
    rewrite Hc0 in Hc1. injection Hc1 as <-.
    rewrite bool_decide_eq_true_2 by exact Hcw. reflexivity.
  - apply mark_character.
Qed.

End KeyByKey.

(** ** Save points and repeated jumps *)

(** The same action at each of the clock readings. *)
Definition repeatedly (action : Action) (readings : list Z)
    : list (Z * Action) :=
  map (fun now => (now, action)) readings.

Section SavePoints.

Variable en1000 : list jsstring.

(** X16.  Typing stamps [lastSave] only on progress through the wordlist:
    after an [APPEND_BUFFER] either [lastSave] is what it was, or it is the
    current time and the keystroke finished the session or moved one level
    up. *)
Theorem typing_saves_on_progress (now : Z) (st st' : State)
    (payload : jsstring) :
  reducer en1000 now st (APPEND_BUFFER payload) = Ok st' ->
  lastSave st' = lastSave st
  \/ (lastSave st' = Some now
      /\ ((finished st' = true /\ level st' = level st)
          \/ (finished st' = false /\ level st' = (level st + 1)%nat))).
Proof.
  intros Hstep. simpl in Hstep. unfold append_buffer in Hstep.
  cbv zeta in Hstep.
  repeat case_match; simplify_eq; cbn; auto.
Qed.

(** X17.  Jumps add up and stop at the ends: with the overlay closed and
    [level <= highestLevel], [n] times [JUMP_FORWARDS] lands on
    [min(highestLevel, level + n)] and [n] times [JUMP_BACKWARDS] on
    [max(0, level - n)], with [highestLevel] untouched. *)
Theorem jumps_add_up (readings : list Z) :
  forall (st : State) (highest : nat),
    showInstructions st = false ->
    highestLevel st = Some highest ->
    (level st <= highest)%nat ->
    (exists forwards,
        dispatchAll en1000 st (repeatedly JUMP_FORWARDS readings) = Ok forwards
        /\ level forwards = Nat.min highest (level st + length readings)
        /\ highestLevel forwards = Some highest)
    /\ (exists backwards,
        dispatchAll en1000 st (repeatedly JUMP_BACKWARDS readings)
        = Ok backwards
        /\ level backwards = (level st - length readings)%nat
        /\ highestLevel backwards = Some highest).
Proof.
  induction readings as [|now rest IH]; intros st highest Hshow Hhigh Hlevel.
  - simpl. split; eexists; (split; [reflexivity|]); split; try assumption; lia.
  - split.
    + destruct (IH (jump_to en1000 now st (Nat.min highest (level st + 1)))
                  highest Hshow Hhigh) as [(forwards & Hrun & Hlands & Hkeeps) _];
        [cbn; lia|].
      exists forwards. split; [|split; [|exact Hkeeps]].
      * cbn [repeatedly map dispatchAll reducer]. rewrite Hshow, Hhigh.
        exact Hrun.
      * rewrite Hlands. cbn. lia.
    + destruct (IH (jump_to en1000 now st
                      (Z.to_nat (Z.max 0 (Z.of_nat (level st) - 1))))
                  highest Hshow Hhigh) as [_ (backwards & Hrun & Hlands & Hkeeps)];
        [cbn; lia|].
      exists backwards. split; [|split; [|exact Hkeeps]].
      * cbn [repeatedly map dispatchAll reducer]. rewrite Hshow, Hhigh.
        exact Hrun.
      * rewrite Hlands. cbn. lia.
Qed.

End SavePoints.

(** ** Off the end of the wordlist *)

Section OffTheEnd.

Variable en1000 : list jsstring.

(** X23.  An index past the end of the wordlist gives the word
    [undefined ]: [list[index]] is [undefined], which the template literal
    spells out, so the factory returns those ten characters, unmarked.  In
    particular [SET_WORDLIST] with an empty list puts that word up at
    level 0. *)
Theorem createWord_out_of_range (list : list jsstring) (index : nat) :
  (length list <= index)%nat ->
  characters (createWord list index)
  = map (fun c => {| character := c; correct := None |})
      (split (lit "undefined "))
  /\ forall now st,
       exists st',
         reducer en1000 now st (SET_WORDLIST []) = Ok st'
         /\ level st' = 0%nat
         /\ characters (word st')
            = map (fun c => {| character := c; correct := None |})
                (split (lit "undefined ")).
Proof.
  intros Hpast.
  assert (Hword : characters (createWord list index)
                  = map (fun c => {| character := c; correct := None |})
                      (split (lit "undefined "))).
  { unfold createWord. rewrite (lookup_ge_None_2 list index Hpast).
    reflexivity. }
  split; [exact Hword|].
  intros now st. eexists. split; [reflexivity|]. split; reflexivity.
Qed.

(** X24.  Typing cannot finish a session whose level is not an index of
    its wordlist (an empty wordlist, for one): [level + 1] never equals the
    length, so a reached streak moves the level further up instead. *)
Theorem off_the_end_never_finishes (now : Z) (st st' : State)
    (payload : jsstring) :
  (length (activeWordlist en1000 st) <= level st)%nat ->
  finished st = false ->
  reducer en1000 now st (APPEND_BUFFER payload) = Ok st' ->
  finished st' = false
  /\ (length (activeWordlist en1000 st') <= level st')%nat.
Proof.
  intros Hpast Hfin Hstep. simpl in Hstep. unfold append_buffer in Hstep.
  cbv zeta in Hstep. unfold activeWordlist in *.
  repeat case_match; simplify_eq; cbn;
    repeat match goal with
           | H : (_ =? _)%nat = true |- _ => apply Nat.eqb_eq in H
           end;
    (split; [assumption || lia | lia]).
Qed.

End OffTheEnd.

Lemma createWord_out_of_range_witness :
  map character (characters (createWord [] 0)) = split (lit "undefined ").
Proof.
  destruct (createWord_out_of_range sampleList [] 0) as [Hword _].
  - simpl. lia.
  - rewrite Hword. reflexivity.
Defined.

Lemma off_the_end_never_finishes_witness :
  exists st',
    reducer sampleList 300
      (with_customWordlist (Some [])
         (sampleTyping 0 (lit "cat") (Some 0) 0 1))
      (APPEND_BUFFER (lit " ")) = Ok st'
    /\ finished st' = false
    /\ level st' = 1%nat.
Proof.
  eexists. split; [lazy; reflexivity|].
  match goal with
  | |- finished ?after = _ /\ _ =>
      destruct (off_the_end_never_finishes sampleList 300
                  (with_customWordlist (Some [])
                     (sampleTyping 0 (lit "cat") (Some 0) 0 1))
                  after (lit " "))
        as [Hopen _]
  end.
  - vm_compute. lia.
  - reflexivity.
  - reflexivity.
  - split; [exact Hopen | reflexivity].
Defined.

(** The error sound does sound on marks that are ahead of the buffer: a
    state that [wellFormed] rules out. *)
Example stale_marks_sound_the_error :
  requested 0
    (with_muted false
       (with_buffer (lit "c")
          (with_word
             {| characters :=
                  mark (lit "cx") (characters (createWord sampleList 0));
                startTime := Some 0;
                endTime := None;
                wpm := None;
                hitTargetWPM := false;
                match_ := false;
                streak := 0 |}
             (with_targetStreak 5 sampleStart))))
    (APPEND_BUFFER (lit "x"))
  = [{| sound := Some (lit "error"); detune := of_Z 100 |}].
Proof. reflexivity. Qed.

(** ** The further properties at work on sample sessions *)

Lemma settings_untouched_witness :
  exists st',
    reducer sampleList 0 sampleStart (APPEND_BUFFER (lit "c")) = Ok st'
    /\ targetWPM st' = 30
    /\ muted st' = true
    /\ customWordlist st' = Some sampleList.
Proof.
  eexists. split; [lazy; reflexivity|].
  match goal with
  | |- targetWPM ?after = _ /\ _ =>
      destruct (settings_untouched sampleList 0 sampleStart after
                  (APPEND_BUFFER (lit "c")) eq_refl eq_refl)
        as (Hwpm & _ & _ & Hmuted & _ & Hlist & _)
  end.
  split; [exact Hwpm|]. split; [exact Hmuted | exact Hlist].
Defined.

Lemma highest_never_drops_witness :
  exists st' highest',
    reducer sampleList 300 (sampleTyping 0 (lit "cat") (Some 0) 0 1)
      (APPEND_BUFFER (lit " ")) = Ok st'
    /\ highestLevel st' = Some highest'
    /\ (0 <= highest')%nat.
Proof.
  destruct (reducer sampleList 300 (sampleTyping 0 (lit "cat") (Some 0) 0 1)
              (APPEND_BUFFER (lit " "))) as [after|] eqn:Hstep;
    [|vm_compute in Hstep; discriminate Hstep].
  destruct (highest_never_drops sampleList 300
              (sampleTyping 0 (lit "cat") (Some 0) 0 1) after
              (APPEND_BUFFER (lit " ")) 0 eq_refl eq_refl Hstep)
    as (highest' & Hhigh & Hle).
  exists after, highest'.
  split; [reflexivity|]. split; [exact Hhigh | exact Hle].
Defined.

Lemma levels_stay_in_range_witness :
  exists st' entry,
    reducer sampleList 300 (sampleTyping 0 (lit "cat") (Some 0) 0 1)
      (APPEND_BUFFER (lit " ")) = Ok st'
    /\ levelsInRange sampleList st'
    /\ activeWordlist sampleList st' !! level st' = Some entry.
Proof.
  destruct (reducer sampleList 300 (sampleTyping 0 (lit "cat") (Some 0) 0 1)
              (APPEND_BUFFER (lit " "))) as [after|] eqn:Hstep;
    [|vm_compute in Hstep; discriminate Hstep].
  destruct (levels_stay_in_range sampleList 300
              (sampleTyping 0 (lit "cat") (Some 0) 0 1) after
              (APPEND_BUFFER (lit " ")))
    as (Hrange & entry & Hentry).
  - discriminate.
  - discriminate.
  - intros payload. discriminate.
  - exists 0%nat. repeat split; vm_compute; lia.
  - exact Hstep.
  - exists after, entry.
    split; [reflexivity|]. split; [exact Hrange | exact Hentry].
Defined.

Lemma finished_on_last_level_witness :
  exists st',
    reducer sampleList 3300 sampleBeforeFinish (APPEND_BUFFER (lit " ")) = Ok st'
    /\ finished st' = true
    /\ (level st' + 1)%nat = length (activeWordlist sampleList st').
Proof.
  eexists. split; [lazy; reflexivity|]. split; [reflexivity|].
  match goal with
  | |- (level ?after + 1)%nat = _ =>
      apply (finished_on_last_level sampleList 3300 sampleBeforeFinish after
               (APPEND_BUFFER (lit " ")))
  end.
  - intros payload. discriminate.
  - intros Hfinished. discriminate Hfinished.
  - reflexivity.
  - reflexivity.
Defined.

Lemma reducer_keeps_wellFormed_witness :
  exists st',
    reducer sampleList 0 sampleStart (APPEND_BUFFER (lit "c")) = Ok st'
    /\ wellFormed sampleList st'.
Proof.
  apply reducer_keeps_wellFormed.
  - apply wellFormed_fresh; reflexivity.
  - reflexivity.
Defined.

Lemma session_never_throws_witness :
  exists st',
    dispatchAll sampleList (initialState sampleList)
      ((0, TOGGLE_INSTRUCTIONS) :: sampleTwice ++ [(2000, JUMP_FORWARDS)])
    = Ok st'
    /\ wellFormed sampleList st'.
Proof.
  apply session_never_throws.
  repeat (constructor; [simpl; auto|]). constructor.
Defined.

Lemma wpm_whole_witness :
  wpm_of 300 (Some 0) 4 = NaN
  \/ wpm_of 300 (Some 0) 4 = Infinity false
  \/ exists w, wpm_of 300 (Some 0) 4 = of_Z w /\ 0 <= w.
Proof.
  apply (wpm_whole 300 (Some 0) 4). vm_compute. discriminate.
Defined.

Lemma wpm_without_time_witness :
  num_ge (wpm_of 0 (Some 1000) 4) (of_Z 30) = false.
Proof.
  apply (wpm_without_time 0 (Some 1000) 4 30).
  - reflexivity.
  - left. reflexivity.
Defined.

Lemma silent_when_witness :
  requested 0 sampleStart (APPEND_BUFFER (lit "c")) = [].
Proof.
  apply silent_when. left. reflexivity.
Defined.

Lemma wrong_key_is_silent_witness :
  requested 0 (with_muted false sampleStart) (APPEND_BUFFER (lit "x")) = []
  \/ (matches (buffer (with_muted false sampleStart) ++ lit "x")
        (characters (word (with_muted false sampleStart)))
      /\ muted (with_muted false sampleStart) = false
      /\ exists rest,
           requested 0 (with_muted false sampleStart) (APPEND_BUFFER (lit "x"))
           = {| sound := clickSounds (with_muted false sampleStart) !! 0%nat;
                detune := of_Z 100 |} :: rest).
Proof.
  apply (wrong_key_is_silent sampleList 0 (with_muted false sampleStart) 120%N).
  apply wellFormed_fresh; reflexivity.
Defined.


Lemma typing_accumulates_witness :
  dispatchAll sampleList (with_targetStreak 5 sampleStart)
    (keystrokes [(0, 99%N); (100, 97%N)])
  = Ok (typedSoFar 0 (with_targetStreak 5 sampleStart) (lit "ca")).
Proof.
  apply (typing_accumulates sampleList [(100, 97%N)] 0 99%N
           (with_targetStreak 5 sampleStart)).
  - repeat split.
  - intros [_ Hspace]. discriminate Hspace.
  - apply every_character_matches. reflexivity.
  - simpl. lia.
Defined.

Lemma word_scored_witness :
  exists st',
    dispatchAll sampleList (with_targetStreak 5 sampleStart)
      (keystrokes [(0, 99%N); (100, 97%N); (200, 116%N); (300, 32%N)])
    = Ok st'
    /\ wpm (word st') = Some (of_Z 160)
    /\ streak (word st') = 1
    /\ buffer st' = [].
Proof.
  destruct (word_scored sampleList [(100, 97%N); (200, 116%N)] 0 300 99%N 32%N
              (with_targetStreak 5 sampleStart))
    as (st' & Hrun & Hbuffer & _ & _ & _ & _ & Hwpm & _ & _ & _ & Hstreak & _).
  - repeat split.
  - intros [_ Hspace]. discriminate Hspace.
  - apply every_character_matches. reflexivity.
  - reflexivity.
  - vm_compute. reflexivity.
  - exists st'. split; [exact Hrun|].
    split; [rewrite Hwpm; vm_compute; reflexivity|].
    split; [rewrite Hstreak; vm_compute; reflexivity | exact Hbuffer].
Defined.

Lemma typing_saves_on_progress_witness :
  exists st',
    reducer sampleList 300 (sampleTyping 0 (lit "cat") (Some 0) 0 1)
      (APPEND_BUFFER (lit " ")) = Ok st'
    /\ (lastSave st' = lastSave (sampleTyping 0 (lit "cat") (Some 0) 0 1)
        \/ (lastSave st' = Some 300
            /\ ((finished st' = true /\ level st' = 0%nat)
                \/ (finished st' = false /\ level st' = 1%nat)))).
Proof.
  eexists. split; [lazy; reflexivity|].
  match goal with
  | |- lastSave ?after = _ \/ _ =>
      exact (typing_saves_on_progress sampleList 300
               (sampleTyping 0 (lit "cat") (Some 0) 0 1) after (lit " ")
               eq_refl)
  end.
Defined.

Lemma jumps_add_up_witness :
  exists forwards,
    dispatchAll sampleList (with_highestLevel (Some 1%nat) sampleStart)
      (repeatedly JUMP_FORWARDS [10; 20; 30]) = Ok forwards
    /\ level forwards = 1%nat.
Proof.
  destruct (jumps_add_up sampleList [10; 20; 30]
              (with_highestLevel (Some 1%nat) sampleStart) 1)
    as [(forwards & Hrun & Hlands & _) _].
  - reflexivity.
  - reflexivity.
  - vm_compute. lia.
  - exists forwards. split; [exact Hrun | exact Hlands].
Defined.

(** * The first reducer, in [src/app/page.tsx]

    The page component carries an earlier reducer of its own: the buffer is
    edited freely, with a backspace, and the space bar scores the word and
    then confirms.  Its word factory takes the wordlist entry itself and
    throws on a missing one; its state has no overlay, no saved progress and
    no sounds.  [Word], [Character], [mark] and the numbers are those of
    [state.ts]. *)

Module Page.

Record State : Type := mkState {
  word : Word;
  level : nat;
  buffer : jsstring;
  targetWPM : Z;
  targetStreak : Z;
  finished : bool;
}.

Inductive Action : Type :=
  | SET_TARGET_STREAK (payload : Z)
  | SET_TARGET_WPM (payload : Z)
  | SET_WORD (payload : Word)
  | SET_CHARACTERS (payload : list Character)
  | APPEND_BUFFER (payload : jsstring)
  | BACKSPACE_BUFFER
  | NEXT_LEVEL
  | RESET_GAME.

(** [createWord(raw)]; [raw.toLowerCase()] throws on [undefined]. *)
Definition createWord (raw : option jsstring) : result Word :=
  match raw with
  | None => TypeError
  | Some text =>
      Ok {| characters :=
              map (fun c => {| character := c; correct := None |})
                (split (toLowerCase text));
            startTime := None;
            endTime := None;
            wpm := None;
            hitTargetWPM := false;
            match_ := false;
            streak := 0 |}
  end.

(** A timestamp in a condition: [undefined] and 0 are falsy. *)
Definition truthy (x : option Z) : bool :=
  match x with
  | Some z => negb (z =? 0)
  | None => false
  end.

(** [characters.every((character, index) =>
      character.character === buffer[index])], from [index] on. *)
Fixpoint every_expected (index : nat) (chars : list Character)
    (typed : jsstring) : bool :=
  match chars with
  | [] => true
  | c :: rest =>
      match typed !! index with
      | Some u =>
          if bool_decide (character c = [u])
          then every_expected (S index) rest typed
          else false
      | None => false
      end
  end.

(** [Math.round(60 / ((Date.now() - (startTime ?? 0)) / 1000))]. *)
Definition wpm_of (now : Z) (start : option Z) : number :=
  Math_round
    (num_div (of_Z 60) (num_div (of_Z (now - default 0 start)) (of_Z 1000))).

(** [buffer.slice(0, -1)]. *)
Definition dropLast (s : jsstring) : jsstring := take (length s - 1) s.

Definition startingLevel : nat := 0.

Section Reducer.

(** [config/wordlist.json]; its content is data. *)
Variable wordlist : list jsstring.

(** The module evaluates [initialState] once, when it is loaded. *)
Definition initialState : result State :=
  match createWord (wordlist !! startingLevel) with
  | TypeError => TypeError
  | Ok first =>
      Ok {| word := first;
            level := startingLevel;
            buffer := [];
            targetWPM := 60;
            targetStreak := 1;
            finished := false |}
  end.

Definition reducer (now : Z) (state : State) (action : Action)
    : result State :=
  match action with
  | SET_TARGET_STREAK payload =>
      Ok {| word := word state; level := level state; buffer := buffer state;
            targetWPM := targetWPM state; targetStreak := payload;
            finished := finished state |}
  | SET_TARGET_WPM payload =>
      Ok {| word := word state; level := level state; buffer := buffer state;
            targetWPM := payload; targetStreak := targetStreak state;
            finished := finished state |}
  | SET_WORD payload =>
      Ok {| word := payload; level := level state; buffer := buffer state;
            targetWPM := targetWPM state; targetStreak := targetStreak state;
            finished := finished state |}
  | SET_CHARACTERS payload =>
      Ok {| word :=
              {| characters := payload;
                 startTime := startTime (word state);
                 endTime := endTime (word state);
                 wpm := wpm (word state);
                 hitTargetWPM := hitTargetWPM (word state);
                 match_ := match_ (word state);
                 streak := streak (word state) |};
            level := level state; buffer := buffer state;
            targetWPM := targetWPM state; targetStreak := targetStreak state;
            finished := finished state |}
  | APPEND_BUFFER payload =>
      if truthy (endTime (word state)) then Ok state
      else if (length (characters (word state))
               <=? length (buffer state))%nat then Ok state
      else
        Ok {| word :=
                if truthy (startTime (word state)) then word state
                else
                  {| characters := characters (word state);
                     startTime := Some now;
                     endTime := endTime (word state);
                     wpm := wpm (word state);
                     hitTargetWPM := hitTargetWPM (word state);
                     match_ := match_ (word state);
                     streak := streak (word state) |};
              level := level state;
              buffer := buffer state ++ payload;
              targetWPM := targetWPM state;
              targetStreak := targetStreak state;
              finished := finished state |}
  | BACKSPACE_BUFFER =>
      if truthy (endTime (word state)) then Ok state
      else
        Ok {| word := word state; level := level state;
              buffer := dropLast (buffer state);
              targetWPM := targetWPM state;
              targetStreak := targetStreak state;
              finished := finished state |}
  | NEXT_LEVEL =>
      if finished state || (length (buffer state) =? 0)%nat then Ok state
      else if undefined (endTime (word state)) then
        let wpm_ := wpm_of now (startTime (word state)) in
        let matched :=
          every_expected 0 (characters (word state)) (buffer state) in
        let hit := num_ge wpm_ (of_Z (targetWPM state)) in
        Ok {| word :=
                {| characters := characters (word state);
                   startTime := startTime (word state);
                   endTime := Some now;
                   wpm := Some wpm_;
                   hitTargetWPM := hit;
                   match_ := matched;
                   streak := if hit && matched
                             then streak (word state) + 1 else 0 |};
              level := level state; buffer := buffer state;
              targetWPM := targetWPM state;
              targetStreak := targetStreak state;
              finished := finished state |}
      else
        match wpm (word state) with
        | None => Ok state
        | Some previous =>
          if negb (match_ (word state))
             || num_lt previous (of_Z (targetWPM state)) then
            match createWord (wordlist !! level state) with
            | TypeError => TypeError
            | Ok again =>
                Ok {| word := again; level := level state; buffer := [];
                      targetWPM := targetWPM state;
                      targetStreak := targetStreak state;
                      finished := finished state |}
            end
          else if streak (word state) <? targetStreak state then
            match createWord (wordlist !! level state) with
            | TypeError => TypeError
            | Ok again =>
                Ok {| word :=
                        {| characters := characters again;
                           startTime := startTime again;
                           endTime := endTime again;
                           wpm := wpm again;
                           hitTargetWPM := hitTargetWPM again;
                           match_ := match_ again;
                           streak := streak (word state) |};
                      level := level state; buffer := [];
                      targetWPM := targetWPM state;
                      targetStreak := targetStreak state;
                      finished := finished state |}
            end
          else if (level state + 1 =? length wordlist)%nat then
            Ok {| word := word state; level := level state + 1;
                  buffer := buffer state;
                  targetWPM := targetWPM state;
                  targetStreak := targetStreak state;
                  finished := true |}
          else
            match createWord (wordlist !! (level state + 1)%nat) with
            | TypeError => TypeError
            | Ok following =>
                Ok {| word := following; level := level state + 1;
                      buffer := [];
                      targetWPM := targetWPM state;
                      targetStreak := targetStreak state;
                      finished := finished state |}
            end
        end
  | RESET_GAME =>
      match initialState with
      | TypeError => TypeError
      | Ok initial =>
          Ok {| word := word initial; level := level initial;
                buffer := buffer initial;
                targetWPM := targetWPM state;
                targetStreak := targetStreak initial;
                finished := finished initial |}
      end
  end.

(** [handleKeyPress]: the actions a key dispatches.  [/^[a-z]$/] accepts
    the one-letter keys a to z. *)
Definition handleKeyPress (key : jsstring) : list Action :=
  (match key with
   | [u] => if ((97 <=? u) && (u <=? 122))%N then [APPEND_BUFFER key] else []
   | _ => []
   end)
  ++ (if bool_decide (key = lit "Backspace") then [BACKSPACE_BUFFER] else [])
  ++ (if bool_decide (key = lit " ") then [NEXT_LEVEL] else []).

(** The effect that follows a change of the buffer: the word is marked
    with the buffer and handed back through [SET_CHARACTERS]. *)
Definition syncCharacters (state : State) : Action :=
  SET_CHARACTERS (mark (buffer state) (characters (word state))).

(** The states a session runs through. *)
Fixpoint dispatchAll (state : State) (events : list (Z * Action))
    : result State :=
  match events with
  | [] => Ok state
  | (now, action) :: rest =>
      match reducer now state action with
      | Ok next => dispatchAll next rest
      | TypeError => TypeError
      end
  end.

End Reducer.

(** ** Properties of the first reducer *)

(** [dropLast] takes back what one key appended. *)
Lemma dropLast_app (s : jsstring) (u : N) : dropLast (s ++ [u]) = s.
Proof.
  unfold dropLast. rewrite length_app. simpl.
  replace (length s + 1 - 1)%nat with (length s) by lia.
  apply take_app_length.
Qed.

Lemma every_expected_spec (chars : list Character) (typed : jsstring) :
  forall index,
    every_expected index chars typed = true
    <-> (forall i c, chars !! i = Some c ->
           exists u, typed !! (index + i)%nat = Some u /\ character c = [u]).
Proof.
  induction chars as [|c0 rest IH]; intros index; simpl.
  - split; [intros _ i c Hc; rewrite lookup_nil in Hc; discriminate | reflexivity].
  - destruct (typed !! index) as [u0|] eqn:Hu0.
    + case_bool_decide as Heq.
      * rewrite IH. split.
        -- intros Hrest [|i] c Hc; simpl in Hc.
           ++ injection Hc as <-. rewrite Nat.add_0_r. eauto.
           ++ replace (index + S i)%nat with (S index + i)%nat by lia. eauto.
        -- intros Hall i c Hc.
           replace (S index + i)%nat with (index + S i)%nat by lia.
           apply Hall. exact Hc.
      * split; [discriminate|]. intros Hall.
        destruct (Hall 0%nat c0 eq_refl) as (u & Hu & Hcu).
        rewrite Nat.add_0_r, Hu0 in Hu. congruence.
    + split; [discriminate|]. intros Hall.
      destruct (Hall 0%nat c0 eq_refl) as (u & Hu & _).
      rewrite Nat.add_0_r, Hu0 in Hu. discriminate.
Qed.

Lemma page_wpm_positive_elapsed (now : Z) (start : option Z) (p : positive) :
  now - default 0 start = Z.pos p ->
  wpm_of now start = of_Z ((120000 + Z.pos p) / (2 * Z.pos p)).
Proof.
  intros He. unfold wpm_of. rewrite He.
  unfold of_Z, num_div, Math_round.
  change (Qeq_bool (inject_Z 1000) 0) with false. cbv iota.
  change (Qeq_bool (inject_Z (Z.pos p) / inject_Z 1000) 0) with false.
  cbv iota. unfold of_Z. do 2 f_equal.
  unfold Qfloor, Qplus, Qdiv, Qmult, Qinv, inject_Z. cbn [Qnum Qden].
  change (Z.pos p * 1) with (Z.pos (p * 1)). cbn [Qnum Qden].
  rewrite !Pos2Z.inj_mul.
  match goal with
  | |- ?top / ?bottom = _ =>
      replace top with (120000 + Z.pos p) by lia;
      replace bottom with (2 * Z.pos p) by lia
  end.
  reflexivity.
Qed.

Section Properties.

Variable wordlist : list jsstring.

(** The level is an index into the wordlist until the session is finished,
    and one past the last index from then on. *)
Definition levelInRange (st : State) : Prop :=
  if finished st then level st = length wordlist
  else (level st < length wordlist)%nat.

(** The buffer is no longer than the word. *)
Definition fits (st : State) : Prop :=
  (length (buffer st) <= length (characters (word st)))%nat.

Lemma createWord_defined (index : nat) :
  (index < length wordlist)%nat ->
  exists w, createWord (wordlist !! index) = Ok w.
Proof.
  intros Hi. destruct (lookup_lt_is_Some_2 wordlist index Hi) as [entry ->].
  simpl. eauto.
Qed.

Lemma reducer_keeps_level (now : Z) (st : State) (action : Action) :
  wordlist <> [] ->
  levelInRange st ->
  exists st', reducer wordlist now st action = Ok st' /\ levelInRange st'.
Proof.
  intros Hdata Hlevel.
  assert (Hfirst : (0 < length wordlist)%nat)
    by (destruct wordlist; [congruence | simpl; lia]).
  unfold levelInRange in *.
  destruct st as [w l b tw ts f]. cbn in Hlevel.
  destruct action; cbn;
    try (eexists; split; [reflexivity|]; exact Hlevel).
  - destruct (truthy (endTime w)); [|destruct (_ <=? _)%nat];
      eexists; (split; [reflexivity|]); exact Hlevel.
  - destruct (truthy (endTime w));
      eexists; (split; [reflexivity|]); exact Hlevel.
  - destruct f; cbn [orb]; [eauto|].
    destruct (length b =? 0)%nat; [eauto|].
    destruct (undefined (endTime w));
      [eexists; split; [reflexivity|]; exact Hlevel|].
    destruct (wpm w); [|eauto].
    destruct (createWord_defined l Hlevel) as [again ->].
    destruct (negb (match_ w) || num_lt n (of_Z tw));
      [eexists; split; [reflexivity|]; exact Hlevel|].
    destruct (streak w <? ts);
      [eexists; split; [reflexivity|]; exact Hlevel|].
    destruct (Nat.eqb_spec (l + 1) (length wordlist)) as [Hlast|Hmore].
    + eexists. split; [reflexivity|]. exact Hlast.
    + destruct (createWord_defined (l + 1)) as [following ->]; [lia|].
      eexists. split; [reflexivity|]. cbn. lia.
  - unfold initialState.
    destruct (createWord_defined startingLevel Hfirst) as [first ->].
    eexists. split; [reflexivity|]. exact Hfirst.
Qed.

(** X18.  The page throws only if its wordlist is empty: then
    [initialState] itself throws, as the module is loaded; with a non-empty
    wordlist a session of any actions runs to a state, in which the level is
    an index into the wordlist until the session is finished and
    [wordlist.length] once it is. *)
Theorem page_session_never_throws :
  (initialState wordlist = TypeError <-> wordlist = [])
  /\ (wordlist <> [] ->
      exists initial,
        initialState wordlist = Ok initial
        /\ forall events,
             exists st',
               dispatchAll wordlist initial events = Ok st'
               /\ levelInRange st').
Proof.
  split.
  - unfold initialState, startingLevel.
    destruct wordlist as [|entry rest]; simpl; split; congruence.
  - intros Hdata.
    assert (Hfirst : (0 < length wordlist)%nat)
      by (destruct wordlist; [congruence | simpl; lia]).
    unfold initialState.
    destruct (createWord_defined startingLevel Hfirst) as [first ->].
    eexists. split; [reflexivity|].
    assert (Hrun : forall events st,
               levelInRange st ->
               exists st',
                 dispatchAll wordlist st events = Ok st' /\ levelInRange st').
    { induction events as [|[now action] rest IH]; intros st Hlevel; simpl.
      - eauto.
      - destruct (reducer_keeps_level now st action Hdata Hlevel)
          as (next & -> & Hnext).
        apply IH. exact Hnext. }
    intros events. apply Hrun. exact Hfirst.
Qed.

Lemma handleKeyPress_cases (key : jsstring) :
  (exists u, key = [u] /\ (97 <= u <= 122)%N
             /\ handleKeyPress key = [APPEND_BUFFER key])
  \/ (key = lit "Backspace" /\ handleKeyPress key = [BACKSPACE_BUFFER])
  \/ (key = lit " " /\ handleKeyPress key = [NEXT_LEVEL])
  \/ handleKeyPress key = [].
Proof.
  unfold handleKeyPress.
  destruct (decide (key = lit "Backspace")) as [->|Hback];
    [right; left; split; reflexivity|].
  destruct (decide (key = lit " ")) as [->|Hspace];
    [right; right; left; split; reflexivity|].
  rewrite (bool_decide_eq_false_2 _ Hback), (bool_decide_eq_false_2 _ Hspace).
  destruct key as [|u [|v rest]]; try (right; right; right; reflexivity).
  destruct ((97 <=? u) && (u <=? 122))%N eqn:Hletter;
    [|right; right; right; reflexivity].
  left. exists u. apply andb_true_iff in Hletter as [Hlow Hhigh].
  apply N.leb_le in Hlow, Hhigh. repeat split; assumption.
Qed.

(** X19.  Each key dispatches at most one action, and which one is fixed
    by the key: a letter from a to z appends itself, Backspace deletes, the
    space bar scores or confirms, and any other key (a capital, a digit,
    Enter) does nothing. *)
Theorem one_action_per_key :
  (forall u, (97 <= u <= 122)%N -> handleKeyPress [u] = [APPEND_BUFFER [u]])
  /\ handleKeyPress (lit "Backspace") = [BACKSPACE_BUFFER]
  /\ handleKeyPress (lit " ") = [NEXT_LEVEL]
  /\ (forall key,
        (forall u, (97 <= u <= 122)%N -> key <> [u]) ->
        key <> lit "Backspace" -> key <> lit " " ->
        handleKeyPress key = [])
  /\ (forall key, (length (handleKeyPress key) <= 1)%nat).
Proof.
  split; [|split; [reflexivity|split; [reflexivity|split]]].
  - intros u [Hlow Hhigh]. unfold handleKeyPress.
    apply N.leb_le in Hlow, Hhigh. rewrite Hlow, Hhigh. simpl.
    rewrite !bool_decide_eq_false_2; [reflexivity| |].
    + intros Heq. injection Heq as ->. discriminate.
    + intros Heq. discriminate.
  - intros key Hletter Hback Hspace.
    destruct (handleKeyPress_cases key)
      as [(u & -> & Hu & _)|[[-> _]|[[-> _]|Hnone]]].
    + exfalso. exact (Hletter u Hu eq_refl).
    + exfalso. exact (Hback eq_refl).
    + exfalso. exact (Hspace eq_refl).
    + exact Hnone.
  - intros key.
    destruct (handleKeyPress_cases key)
      as [(u & _ & _ & ->)|[[_ ->]|[[_ ->]| ->]]]; simpl; lia.
Qed.

(** X20.  The keyboard cannot overfill the buffer: from a state whose
    buffer is no longer than the word, whatever a key dispatches, and the
    marking effect that follows, lead to such a state again. *)
Theorem keys_keep_buffer_within_word (now : Z) (st st' : State)
    (key : jsstring) (action : Action) :
  fits st ->
  In action (handleKeyPress key) \/ action = syncCharacters st ->
  reducer wordlist now st action = Ok st' ->
  fits st'.
Proof.
  unfold fits. intros Hfits Hfrom Hstep.
  destruct Hfrom as [Hkey| ->].
  - destruct (handleKeyPress_cases key)
      as [(u & -> & _ & Hone)|[[_ Hone]|[[_ Hone]|Hone]]];
      rewrite Hone in Hkey; simpl in Hkey; [| | |contradiction];
      destruct Hkey as [<-|[]]; simpl in Hstep.
    + repeat case_match; simplify_eq; cbn; try exact Hfits.
      * match goal with H : (_ <=? _)%nat = false |- _ =>
          apply Nat.leb_gt in H end.
        rewrite length_app. simpl. lia.
      * match goal with H : (_ <=? _)%nat = false |- _ =>
          apply Nat.leb_gt in H end.
        rewrite length_app. simpl. lia.
    + repeat case_match; simplify_eq; cbn; try exact Hfits.
      unfold dropLast. rewrite length_take. lia.
    + repeat case_match; simplify_eq; cbn; try exact Hfits; lia.
  - simpl in Hstep. injection Hstep as <-. cbn. rewrite mark_length.
    exact Hfits.
Qed.

(** X21.  Backspace takes back a keystroke: when a one-character
    [APPEND_BUFFER] is accepted (the word has no [endTime] yet and the
    buffer is shorter than the word), a [BACKSPACE_BUFFER] right after it
    restores the buffer, and the state differs from the original at most in
    [startTime], which the keystroke set if it was not set. *)
Theorem backspace_undoes_append (now later : Z) (st : State) (u : N) :
  truthy (endTime (word st)) = false ->
  (length (buffer st) < length (characters (word st)))%nat ->
  exists typed back,
    reducer wordlist now st (APPEND_BUFFER [u]) = Ok typed
    /\ buffer typed = buffer st ++ [u]
    /\ reducer wordlist later typed BACKSPACE_BUFFER = Ok back
    /\ buffer back = buffer st
    /\ back
       = {| word := if truthy (startTime (word st)) then word st
                    else
                      {| characters := characters (word st);
                         startTime := Some now;
                         endTime := endTime (word st);
                         wpm := wpm (word st);
                         hitTargetWPM := hitTargetWPM (word st);
                         match_ := match_ (word st);
                         streak := streak (word st) |};
            level := level st;
            buffer := buffer st;
            targetWPM := targetWPM st;
            targetStreak := targetStreak st;
            finished := finished st |}.
Proof.
  intros Hopen Hshort. simpl. rewrite Hopen.
  replace (length (characters (word st)) <=? length (buffer st))%nat
    with false by (symmetry; apply Nat.leb_gt; exact Hshort).
  do 2 eexists. split; [reflexivity|]. split; [reflexivity|].
  cbn [word buffer level targetWPM targetStreak finished].
  assert (Hstill : truthy (endTime
                     (if truthy (startTime (word st)) then word st
                      else
                        {| characters := characters (word st);
                           startTime := Some now;
                           endTime := endTime (word st);
                           wpm := wpm (word st);
                           hitTargetWPM := hitTargetWPM (word st);
                           match_ := match_ (word st);
                           streak := streak (word st) |})) = false)
    by (destruct (truthy (startTime (word st))); exact Hopen).
  rewrite Hstill, dropLast_app.
  split; [reflexivity|]. split; reflexivity.
Qed.

(** X22.  The space bar scores the word: on an unfinished state with a
    non-empty buffer, no [endTime] and time elapsed since the first key,
    [NEXT_LEVEL] keeps buffer, level and characters, sets [endTime] to the
    current time and [wpm] to [60000 / elapsed] rounded to the nearest
    integer, records a match exactly when every character of the word has
    its equal in the buffer at its position, meets the target exactly when
    [elapsed * (2 * targetWPM - 1) <= 120000], and raises the streak by 1
    when matched and on target, setting it to 0 otherwise. *)
Theorem space_scores (now : Z) (st : State) :
  finished st = false ->
  buffer st <> [] ->
  endTime (word st) = None ->
  0 < now - default 0 (startTime (word st)) ->
  exists st',
    reducer wordlist now st NEXT_LEVEL = Ok st'
    /\ buffer st' = buffer st
    /\ level st' = level st
    /\ characters (word st') = characters (word st)
    /\ endTime (word st') = Some now
    /\ wpm (word st')
       = Some (of_Z ((120000 + (now - default 0 (startTime (word st))))
                     / (2 * (now - default 0 (startTime (word st))))))
    /\ (match_ (word st') = true
        <-> forall i c, characters (word st) !! i = Some c ->
              exists u, buffer st !! i = Some u /\ character c = [u])
    /\ (hitTargetWPM (word st') = true
        <-> (now - default 0 (startTime (word st))) * (2 * targetWPM st - 1)
            <= 120000)
    /\ streak (word st')
       = if hitTargetWPM (word st') && match_ (word st')
         then streak (word st) + 1 else 0.
Proof.
  intros Hfin Hbuffer Hend Hpos. simpl. rewrite Hfin, Hend. cbn [orb undefined].
  replace (length (buffer st) =? 0)%nat with false
    by (destruct (buffer st); [congruence | reflexivity]).
  eexists. split; [reflexivity|]. cbn.
  destruct (now - default 0 (startTime (word st))) as [|p|p] eqn:He; try lia.
  rewrite (page_wpm_positive_elapsed _ _ p He).
  do 5 (split; [reflexivity|]).
  split; [apply every_expected_spec|]. split; [|reflexivity].
  apply on_target_iff. lia.
Qed.

End Properties.

(** ** The first reducer on a sample session *)

(** The word cat, as [createWord] makes it, with the clock started at
    [start]. *)
Definition sampleWord (start : option Z) : Word :=
  {| characters :=
       map (fun c => {| character := c; correct := None |}) (split (lit "cat"));
     startTime := start;
     endTime := None;
     wpm := None;
     hitTargetWPM := false;
     match_ := false;
     streak := 0 |}.

(** On the first level of [sampleList], with [typed] in the buffer. *)
Definition sampleState (start : option Z) (typed : jsstring) : State :=
  {| word := sampleWord start;
     level := 0;
     buffer := typed;
     targetWPM := 60;
     targetStreak := 1;
     finished := false |}.

Lemma page_session_never_throws_witness :
  exists st',
    dispatchAll sampleList (sampleState None [])
      [(0, APPEND_BUFFER (lit "c")); (100, BACKSPACE_BUFFER); (200, NEXT_LEVEL)]
    = Ok st'
    /\ levelInRange sampleList st'.
Proof.
  destruct (page_session_never_throws sampleList) as [_ Hruns].
  destruct Hruns as (initial & Hinitial & Hevents); [discriminate|].
  injection Hinitial as <-.
  exact (Hevents [(0, APPEND_BUFFER (lit "c")); (100, BACKSPACE_BUFFER);
                  (200, NEXT_LEVEL)]).
Defined.

Lemma one_action_per_key_witness :
  handleKeyPress (lit "a") = [APPEND_BUFFER (lit "a")]
  /\ handleKeyPress (lit "A") = [].
Proof.
  destruct one_action_per_key as (Hletter & _ & _ & Hother & _).
  split.
  - apply (Hletter 97%N). lia.
  - apply Hother.
    + intros u Hu Heq. injection Heq as <-. lia.
    + discriminate.
    + discriminate.
Defined.

Lemma keys_keep_buffer_within_word_witness :
  fits (sampleState (Some 50) (lit "cat")).
Proof.
  apply (keys_keep_buffer_within_word sampleList 200
           (sampleState (Some 50) (lit "ca")) (sampleState (Some 50) (lit "cat"))
           (lit "t") (APPEND_BUFFER (lit "t"))).
  - unfold fits. simpl. lia.
  - left. simpl. left. reflexivity.
  - reflexivity.
Defined.

Lemma backspace_undoes_append_witness :
  exists typed back,
    reducer sampleList 0 (sampleState None (lit "ca")) (APPEND_BUFFER (lit "x"))
    = Ok typed
    /\ buffer typed = lit "cax"
    /\ reducer sampleList 100 typed BACKSPACE_BUFFER = Ok back
    /\ buffer back = lit "ca"
    /\ back = sampleState (Some 0) (lit "ca").
Proof.
  destruct (backspace_undoes_append sampleList 0 100
              (sampleState None (lit "ca")) 120%N)
    as (typed & back & Happend & Hbuffer & Hback & Hrestored & Hstate).
  - reflexivity.
  - simpl. lia.
  - exists typed, back. repeat split; assumption.
Defined.

Lemma space_scores_witness :
  exists st',
    reducer sampleList 1000 (sampleState (Some 0) (lit "cat")) NEXT_LEVEL
    = Ok st'
    /\ wpm (word st') = Some (of_Z 60)
    /\ streak (word st') = 1.
Proof.
  destruct (space_scores sampleList 1000 (sampleState (Some 0) (lit "cat")))
    as (st' & Hstep & _ & _ & _ & _ & Hwpm & Hmatch & Hhit & Hstreak).
  - reflexivity.
  - discriminate.
  - reflexivity.
  - reflexivity.
  - exists st'. split; [exact Hstep|]. split; [exact Hwpm|].
    rewrite Hstreak.
    replace (hitTargetWPM (word st')) with true
      by (symmetry; apply Hhit; vm_compute; discriminate).
    replace (match_ (word st')) with true; [reflexivity|].
    symmetry. apply Hmatch. intros i c Hc.
    destruct i as [|[|[|i]]]; simpl in Hc; try discriminate;
      injection Hc as <-; eexists; split; reflexivity.
Defined.

End Page.
